(** * tasty.js: the menu event record and the input composition of the menu

    A shallow embedding of [src/lib/menu/menu-event.ts] and
    [src/lib/menu/menu.ts].  JavaScript numbers are IEEE binary64 values, so
    they are modelled by Rocq's primitive floats and [===] on numbers by the
    IEEE comparison; objects used as string-keyed records are finite maps;
    a method that can [throw] returns an outcome that says so, and a
    subscriber that throws is unsubscribed and its exception reported to the
    host, as rxjs 6 does.  Time is a count of the units
    [Menu.INPUT_TIMEOUT] is given in, and passes between input events.

    The models come first ([Js], [Lodash], [MenuEventModel], [MenuModel],
    [AngleSpec]), then the vocabulary of the statements ([MenuSpec],
    [InputView], [MenuHistory], [MenuEventSpec]), then the statements and
    their proofs ([MenuEventFacts], [AngleFacts], [MenuFacts],
    [MenuEventSymmetry], [MenuLifecycle], [MenuStreams]). *)

From Stdlib Require Import ZArith QArith Qround Qabs Lia Lqa.
From Stdlib Require Import Floats.PrimFloat Floats.FloatAxioms Floats.SpecFloat.
From stdpp Require Import base option list strings gmap fin_maps fin_sets.

(** ** JavaScript values *)

Module Js.

(** A JavaScript [number]. *)
Definition number : Type := float.

(** [a === b] on two numbers: [NaN] differs from itself, [+0 === -0]. *)
Definition strict_eq_number (a b : number) : bool := PrimFloat.eqb a b.

(** The values a [Record<string, string | number | boolean>] can hold. *)
Inductive prim : Type :=
| PString (s : string)
| PNumber (n : number)
| PBoolean (b : bool).

(** [a === b] on primitives: values of different types are never equal. *)
Definition strict_eq (a b : prim) : bool :=
  match a, b with
  | PString s, PString t => bool_decide (s = t)
  | PNumber x, PNumber y => strict_eq_number x y
  | PBoolean x, PBoolean y => bool_decide (x = y)
  | _, _ => false
  end.

(** A thrown value: [new Error(msg)], or the [TypeError] the engine raises
    when a method is called on [undefined]. *)
Inductive Exception : Type :=
| Error (message : string)
| TypeError (message : string).

(** The outcome of a call that may throw. *)
Inductive Result (A : Type) : Type :=
| Ok (value : A)
| Throw (e : Exception).
Arguments Ok {A} value.
Arguments Throw {A} e.

(** Sequencing: a [throw] propagates to the caller. *)
#[export] Instance Result_ret : MRet Result := fun A a => Ok a.
#[export] Instance Result_bind : MBind Result := fun A B k r =>
  match r with
  | Ok a => k a
  | Throw e => Throw e
  end.

End Js.

Export Js.

(** ** lodash's [isEqual], on the values an event's [data] can take *)

Module Lodash.

(** [baseIsEqual] on two primitives:
    [value === other || (value !== value && other !== other)]. *)
Definition baseIsEqual (value other : prim) : bool :=
  strict_eq value other
  || (negb (strict_eq value value) && negb (strict_eq other other)).

(** [equalObjects]: the two objects have the same number of own keys, and
    every key of [object] is an own key of [other] holding an equal value. *)
Definition equalObjects (object other : gmap string prim) : bool :=
  bool_decide (size object = size other)
  && forallb (fun kv : string * prim =>
                match other !! kv.1 with
                | Some othValue => baseIsEqual kv.2 othValue
                | None => false
                end)
             (map_to_list object).

(** [isEqual(value, other)] where each side is a record or [undefined]. *)
Definition isEqual (value other : option (gmap string prim)) : bool :=
  match value, other with
  | None, None => true
  | Some object, Some oth => equalObjects object oth
  | _, _ => false
  end.

End Lodash.

(** ** [menu-event.ts] *)

Module MenuEventModel.

(** [MenuIdentifier]: [{ itemId: string, angle: number }]. *)
Record MenuIdentifier : Type := mkMenuIdentifier {
  itemId : string;
  angle : number
}.

(** The fields of a [MenuEvent].  [T] stands for the enumeration
    [MenuItemEventType], whose declaration is not part of the sources at
    hand; its values are compared with [===]. *)
Record MenuEvent (T : Type) : Type := mkMenuEvent {
  type : T;
  source : MenuIdentifier;
  target : option MenuIdentifier;
  data : option (gmap string prim)
}.
Arguments mkMenuEvent {T} _ _ _ _.
Arguments type {T} _.
Arguments source {T} _.
Arguments target {T} _.
Arguments data {T} _.

Section Constructor.

(** [Angle.toDeg], from [utlis/angle], which is not part of the sources at
    hand: the constructor is modelled over any such conversion. *)
Variable toDeg : number -> number.

(** [new MenuEvent(type, source, target?, data?)]. *)
Definition MenuEvent_new {T} (type0 : T) (source0 : MenuIdentifier)
    (target0 : option MenuIdentifier) (data0 : option (gmap string prim))
  : MenuEvent T :=
  {| type := type0;
     source := {| itemId := itemId source0; angle := toDeg (angle source0) |};
     data := data0;
     target := match target0 with
               | Some t => Some {| itemId := itemId t; angle := toDeg (angle t) |}
               | None => None
               end |}.

End Constructor.

(** [this.equals(event)]; [event] is an optional parameter. *)
Definition equals {T} `{EqDecision T} (this : MenuEvent T)
    (event : option (MenuEvent T)) : bool :=
  match event with
  | None => false
  | Some event =>
      let selectionTypeEquals := bool_decide (type event = type this) in
      let sourceEquals :=
        bool_decide (itemId (source event) = itemId (source this)) in
      let targetEquals :=
        match target event, target this with
        | Some event_target, Some this_target =>
            bool_decide (itemId event_target = itemId this_target)
            && strict_eq_number (angle event_target) (angle this_target)
        | _, _ => true
        end in
      let dataEquals := Lodash.isEqual (data event) (data this) in
      selectionTypeEquals && targetEquals && sourceEquals && dataEquals
  end.

(** *** What the specification says of equality *)

(** Two primitives are the same value: same type and same contents, where
    two numbers are the same when [===] says so or both are [NaN]. *)
Definition same_value (a b : prim) : Prop :=
  match a, b with
  | PString s, PString t => s = t
  | PBoolean x, PBoolean y => x = y
  | PNumber x, PNumber y =>
      strict_eq_number x y = true
      \/ (strict_eq_number x x = false /\ strict_eq_number y y = false)
  | _, _ => False
  end.

(** Deep equality of two payloads: both absent, or both present with the
    same keys holding the same values. *)
Definition deep_equal (a b : option (gmap string prim)) : Prop :=
  match a, b with
  | None, None => True
  | Some x, Some y => forall k : string, option_Forall2 same_value (x !! k) (y !! k)
  | _, _ => False
  end.

(** The targets match by [itemId] and [angle], both being absent or both
    being present. *)
Definition targets_match (a b : option MenuIdentifier) : bool :=
  match a, b with
  | None, None => true
  | Some x, Some y =>
      bool_decide (itemId x = itemId y) && strict_eq_number (angle x) (angle y)
  | _, _ => false
  end.

(** The targets agree wherever both are present. *)
Definition targets_agree (a b : option MenuIdentifier) : Prop :=
  forall x y, a = Some x -> b = Some y ->
    itemId x = itemId y /\ strict_eq_number (angle x) (angle y) = true.

(** The same event with another angle on its source. *)
Definition with_source_angle {T} (a : number) (e : MenuEvent T) : MenuEvent T :=
  {| type := type e;
     source := {| itemId := itemId (source e); angle := a |};
     target := target e;
     data := data e |}.

(** Two selections of the item [a]: one towards the item [b], one that names
    no target. *)
Definition towards_b : MenuEvent string :=
  {| type := "selection";
     source := {| itemId := "a"; angle := 0%float |};
     target := Some {| itemId := "b"; angle := 90%float |};
     data := None |}.

Definition towards_nothing : MenuEvent string :=
  {| type := "selection";
     source := {| itemId := "a"; angle := 0%float |};
     target := None;
     data := None |}.

End MenuEventModel.

(** ** [menu.ts] *)

Module MenuModel.

(** *** The collaborators of the menu

    paper.js, the animation service, the trace recognizer and the menu items
    are used by [menu.ts] but defined elsewhere.  Plain data (points, sizes,
    the children of a group) is modelled as data; an object whose methods are
    not in the sources at hand is modelled by the calls made on it. *)

(** paper.js's [Point]. *)
Record Point : Type := mkPoint { point_x : number; point_y : number }.

(** Modelled from the spec: [ZERO_POINT] is declared in [lib/constants],
    which is not part of the sources at hand; it is the zero point
    (0, 0). *)
Definition ZERO_POINT : Point := mkPoint 0%float 0%float.

(** paper.js's [Size]. *)
Record Size : Type := mkSize { width : number; height : number }.

(** The fields of an [Input] (a mouse or touch event) that the menu reads. *)
Record Input : Type := mkInput { button : number; buttons : number }.

(** The members of [ClickState] and [DragState] that [menu.ts] names. *)
Inductive ClickState : Type := LEFT_CLICK | RIGHT_CLICK.
Inductive DragState : Type := DRAGGING | END.

(** Modelled from the spec: the enumeration [ItemState] is declared in
    [lib/enums], which is not part of the sources at hand; the spec lists the
    states [NONE], [HIDDEN], [ACTIVE] and [SELECTED]. *)
Inductive ItemState : Type := NONE | HIDDEN | ACTIVE | SELECTED.

#[export] Instance ClickState_eq_dec : EqDecision ClickState.
Proof. solve_decision. Defined.
#[export] Instance DragState_eq_dec : EqDecision DragState.
Proof. solve_decision. Defined.
#[export] Instance ItemState_eq_dec : EqDecision ItemState.
Proof. solve_decision. Defined.

(** [DragDefinition]: [{ position, state }]. *)
Record DragDefinition : Type := mkDrag { position : Point; state : DragState }.

(** The main group of the settings, with the options the builder lists.
    [new Settings(settings)] merges the user's object over the defaults; the
    model starts from the merged object. *)
Record MainSettings : Type := mkMainSettings {
  minDistance : number;
  minTraceDistance : number;
  animationDuration : number;
  enableMaxClickRadius : bool;
  enableAutoResize : bool
}.
Record Settings : Type := mkSettings { main : MainSettings }.

(** An rxjs [Subject], seen through the values it has emitted so far, oldest
    first. *)
Definition Subject (A : Type) : Type := list A.
Definition asObservable {A} (s : Subject A) : Subject A := s.

(** The values of [MenuItemEventType] at run time are primitives. *)
Definition MenuEventDefinition : Type := MenuEventModel.MenuEvent prim.

(** The calls made on the [Animation] and on the [Trace]. *)
Inductive AnimationCall : Type :=
| AnimationInitialize (duration : number)
| AnimationStop
| AnimationStart.
Inductive TraceCall : Type :=
| TraceReset
| TraceUpdate (p : Point).
Definition Animation : Type := list AnimationCall.
Definition Trace : Type := list TraceCall.

(** A menu item as the menu uses it: the properties it assigns and reads, its
    selection stream, and the calls of [init()] and [redraw()].  The
    back-reference [menu] that [setStructure] stores in the item is left out:
    the item is owned by the menu here. *)
Inductive ItemCall : Type := ItemInit | ItemRedraw.
Record MenuItem : Type := mkMenuItem {
  item_state : ItemState;
  item_visible : bool;
  item_position : Point;
  item_settings : option Settings;
  item_selection : Subject MenuEventDefinition;
  item_calls : list ItemCall
}.

(** A paper.js circle, and a [Group] seen through its children. *)
Record Circle : Type := mkCircle { center : Point; radius : number; fillColor : string }.
Definition Group : Type := list Circle.
Definition removeChildren (g : Group) : Group := [].

(** The canvas created by [setupCanvas] and the scope created by
    [setupScope]. *)
Record Canvas : Type := mkCanvas {
  attributes : gmap string string;
  style : gmap string string
}.
Record PaperScope : Type := mkPaperScope {
  insertItems : bool;
  applyMatrix : bool;
  viewSize : option Size
}.

(** The page the menu lives in: which element a selector matches, and the
    size of the window. *)
Definition HTMLElement : Type := string.
Record Browser : Type := mkBrowser {
  querySelector : string -> option HTMLElement;
  innerWidth : number;
  innerHeight : number
}.

(** *** The subscriptions on [inputDeactivation$]

    [setupObservables] builds two pipelines on [inputActivation$].  Each
    activation that passes the filter makes [switchMap] subscribe
    [takeUntil(this.inputDeactivation$)] (after it has unsubscribed the one
    before), and each activation makes [mergeMap] subscribe
    [timeoutWith(INPUT_TIMEOUT, new Observable())] to [inputDeactivation$].
    A [Subject] notifies its observers in the order they subscribed.

    [timeoutWith] with a number as its first argument schedules its timer
    when it is subscribed and schedules it again at every value of its
    source; when the timer fires it leaves the source for
    [new Observable()], which never emits. *)
Inductive DeactivationObserver : Type :=
| DragStop
| ClickWait (remaining : nat).

#[export] Instance DeactivationObserver_eq_dec : EqDecision DeactivationObserver.
Proof. solve_decision. Defined.

(** *** The menu *)

Record Menu : Type := mkMenu {
  _rootSelector : string;
  _settings : Settings;
  _inputPosition : Point;
  _click : option (Subject ClickState);
  _dragging : option (Subject DragDefinition);
  _root : option HTMLElement;
  _canvas : option Canvas;
  _scope : option PaperScope;
  _rootItem : option MenuItem;
  _fadeAnimation : Animation;
  _trace : Trace;
  _traceVisGroup : option Group;
  _markingMode : bool;
  (** whether [setupObservables] has subscribed the pipelines *)
  observablesSetUp : bool;
  (** the observers of [inputDeactivation$], in subscription order *)
  deactivationObservers : list DeactivationObserver;
  (** whether the subscriber that [setupObservables] gives to [_dragging$]
      is still subscribed *)
  draggingSubscribed : bool;
  (** whether the subscriber that [setupObservables] gives to [_click$] is
      still subscribed *)
  clickSubscribed : bool;
  (** the exceptions rxjs has caught in these subscribers and handed to the
      host, oldest first *)
  reportedErrors : list Exception
}.

(** [Menu.INPUT_TIMEOUT]. *)
Definition INPUT_TIMEOUT : nat := 200.

(** Assignments to the fields of [this]. *)
Definition set_inputPosition (v : Point) (m : Menu) : Menu :=
  let 'mkMenu a b _ d e f g h i j k l n o p q r s := m in
  mkMenu a b v d e f g h i j k l n o p q r s.
Definition set_click (v : option (Subject ClickState)) (m : Menu) : Menu :=
  let 'mkMenu a b c _ e f g h i j k l n o p q r s := m in
  mkMenu a b c v e f g h i j k l n o p q r s.
Definition set_dragging (v : option (Subject DragDefinition)) (m : Menu) : Menu :=
  let 'mkMenu a b c d _ f g h i j k l n o p q r s := m in
  mkMenu a b c d v f g h i j k l n o p q r s.
Definition set_root (v : option HTMLElement) (m : Menu) : Menu :=
  let 'mkMenu a b c d e _ g h i j k l n o p q r s := m in
  mkMenu a b c d e v g h i j k l n o p q r s.
Definition set_canvas (v : option Canvas) (m : Menu) : Menu :=
  let 'mkMenu a b c d e f _ h i j k l n o p q r s := m in
  mkMenu a b c d e f v h i j k l n o p q r s.
Definition set_scope (v : option PaperScope) (m : Menu) : Menu :=
  let 'mkMenu a b c d e f g _ i j k l n o p q r s := m in
  mkMenu a b c d e f g v i j k l n o p q r s.
Definition set_rootItem (v : option MenuItem) (m : Menu) : Menu :=
  let 'mkMenu a b c d e f g h _ j k l n o p q r s := m in
  mkMenu a b c d e f g h v j k l n o p q r s.
Definition set_fadeAnimation (v : Animation) (m : Menu) : Menu :=
  let 'mkMenu a b c d e f g h i _ k l n o p q r s := m in
  mkMenu a b c d e f g h i v k l n o p q r s.
Definition set_trace (v : Trace) (m : Menu) : Menu :=
  let 'mkMenu a b c d e f g h i j _ l n o p q r s := m in
  mkMenu a b c d e f g h i j v l n o p q r s.
Definition set_traceVisGroup (v : option Group) (m : Menu) : Menu :=
  let 'mkMenu a b c d e f g h i j k _ n o p q r s := m in
  mkMenu a b c d e f g h i j k v n o p q r s.
Definition set_markingMode (v : bool) (m : Menu) : Menu :=
  let 'mkMenu a b c d e f g h i j k l _ o p q r s := m in
  mkMenu a b c d e f g h i j k l v o p q r s.
Definition set_observablesSetUp (v : bool) (m : Menu) : Menu :=
  let 'mkMenu a b c d e f g h i j k l n _ p q r s := m in
  mkMenu a b c d e f g h i j k l n v p q r s.
Definition set_deactivationObservers (v : list DeactivationObserver) (m : Menu) : Menu :=
  let 'mkMenu a b c d e f g h i j k l n o _ q r s := m in
  mkMenu a b c d e f g h i j k l n o v q r s.
Definition set_draggingSubscribed (v : bool) (m : Menu) : Menu :=
  let 'mkMenu a b c d e f g h i j k l n o p _ r s := m in
  mkMenu a b c d e f g h i j k l n o p v r s.
Definition set_clickSubscribed (v : bool) (m : Menu) : Menu :=
  let 'mkMenu a b c d e f g h i j k l n o p q _ s := m in
  mkMenu a b c d e f g h i j k l n o p q v s.
Definition set_reportedErrors (v : list Exception) (m : Menu) : Menu :=
  let 'mkMenu a b c d e f g h i j k l n o p q r _ := m in
  mkMenu a b c d e f g h i j k l n o p q r v.

(** The outcome of a method of the menu: it returns, or it throws and leaves
    the menu as it was at the [throw]. *)
Inductive Outcome : Type :=
| Done (m : Menu)
| Thrown (e : Exception) (m : Menu).

Definition and_then (r : Outcome) (k : Menu -> Outcome) : Outcome :=
  match r with
  | Done m => k m
  | Thrown e m => Thrown e m
  end.

Notation "'let*' m := r 'in' k" := (and_then r (fun m => k))
  (at level 10, m name, r at level 100, k at level 200, only parsing).

(** The menu an outcome leaves behind. *)
Definition menu_of (r : Outcome) : Menu :=
  match r with
  | Done m => m
  | Thrown _ m => m
  end.

(** [new Menu(rootSelector, settings)]. *)
Definition Menu_new (rootSelector : string) (settings : Settings) : Menu :=
  {| _rootSelector := rootSelector;
     _settings := settings;
     _fadeAnimation := [];
     _trace := [];
     _dragging := Some [];
     _click := Some [];
     _inputPosition := ZERO_POINT;
     _markingMode := false;
     _root := None;
     _canvas := None;
     _scope := None;
     _rootItem := None;
     _traceVisGroup := None;
     observablesSetUp := false;
     deactivationObservers := [];
     draggingSubscribed := false;
     clickSubscribed := false;
     reportedErrors := [] |}.

(** *** Accessors *)

Definition get_inputPosition (m : Menu) : Point := _inputPosition m.

Definition get_markingMode (m : Menu) : bool := _markingMode m.

(** [get click$()]. *)
Definition get_click (m : Menu) : Result (Subject ClickState) :=
  match _click m with
  | None => Throw (Error "Menu not initialized")
  | Some s => Ok (asObservable s)
  end.

(** [get dragging$()]. *)
Definition get_dragging (m : Menu) : Result (Subject DragDefinition) :=
  match _dragging m with
  | None => Throw (Error "Menu not initialized")
  | Some s => Ok (asObservable s)
  end.

(** [get selection$()]. *)
Definition get_selection (m : Menu) : Result (Subject MenuEventDefinition) :=
  match _rootItem m with
  | None => Throw (Error "Menu not initialized")
  | Some item => Ok (item_selection item)
  end.

(** [get canvas()]. *)
Definition get_canvas (m : Menu) : Result Canvas :=
  match _canvas m with
  | None => Throw (Error "Canvas not initialized in menu")
  | Some c => Ok c
  end.

(** *** [display] and [setStructure] *)

(** Assignments to the properties of the root item, and its [init()] and
    [redraw()]. *)
Definition set_item_state (v : ItemState) (i : MenuItem) : MenuItem :=
  let 'mkMenuItem _ b c d e f := i in mkMenuItem v b c d e f.
Definition set_item_visible (v : bool) (i : MenuItem) : MenuItem :=
  let 'mkMenuItem a _ c d e f := i in mkMenuItem a v c d e f.
Definition set_item_position (v : Point) (i : MenuItem) : MenuItem :=
  let 'mkMenuItem a b _ d e f := i in mkMenuItem a b v d e f.
Definition set_item_settings (v : option Settings) (i : MenuItem) : MenuItem :=
  let 'mkMenuItem a b c _ e f := i in mkMenuItem a b c v e f.
Definition item_call (c : ItemCall) (i : MenuItem) : MenuItem :=
  let 'mkMenuItem a b c0 d e f := i in mkMenuItem a b c0 d e (f ++ [c]).

(** [this._rootItem.p = v], where [this._rootItem] is known to be set. *)
Definition on_rootItem (f : MenuItem -> MenuItem) (m : Menu) : Menu :=
  set_rootItem (f <$> _rootItem m) m.

(** [display()]. *)
Definition display (m : Menu) : Outcome :=
  match _rootItem m with
  | None => Thrown (Error "Menu not initialized.") m
  | Some item =>
      if bool_decide (item_state item = HIDDEN)
         || bool_decide (item_state item = NONE)
      then
        (* this.trace$.reset() *)
        let m := set_trace (_trace m ++ [TraceReset]) m in
        (* (this._traceVisGroup as Group).removeChildren() *)
        match _traceVisGroup m with
        | None =>
            Thrown (TypeError "Cannot read properties of undefined (reading 'removeChildren')") m
        | Some group =>
            let m := set_traceVisGroup (Some (removeChildren group)) m in
            (* this._fadeAnimation.stop() *)
            let m := set_fadeAnimation (_fadeAnimation m ++ [AnimationStop]) m in
            (* this._rootItem.visible = true *)
            let m := on_rootItem (set_item_visible true) m in
            (* this._fadeAnimation.start() *)
            let m := set_fadeAnimation (_fadeAnimation m ++ [AnimationStart]) m in
            (* this._rootItem.state = ItemState.ACTIVE *)
            let m := on_rootItem (set_item_state ACTIVE) m in
            (* this._rootItem.redraw() *)
            let m := on_rootItem (item_call ItemRedraw) m in
            (* this._rootItem.position = this.inputPosition *)
            Done (on_rootItem (set_item_position (get_inputPosition m)) m)
        end
      else Done m
  end.

(** [setStructure(structure)].  What [MenuItem.init()] does to the item is
    not in the sources at hand; the call is recorded. *)
Definition setStructure (structure : MenuItem) (m : Menu) : Menu :=
  (* this._rootItem = structure *)
  let m := set_rootItem (Some structure) m in
  (* this._rootItem.settings = this._settings *)
  let m := on_rootItem (set_item_settings (Some (_settings m))) m in
  (* this._rootItem.init() *)
  let m := on_rootItem (item_call ItemInit) m in
  (* this._rootItem.visible = false *)
  let m := on_rootItem (set_item_visible false) m in
  (* this._fadeAnimation.initialize({ ..., options: { duration, ... } }) *)
  set_fadeAnimation
    (_fadeAnimation m ++ [AnimationInitialize (animationDuration (main (_settings m)))]) m.

(** *** The subscribers set up by [setupObservables]

    [subscribe(next)] wraps the callback [next] in a [SafeSubscriber].
    [menu.ts] is written against rxjs 6 ([timeoutWith], and [pipe] with the
    operators of [rxjs/operators]), where an exception thrown by the
    callback is caught by [SafeSubscriber.__tryOrUnsub]: the subscriber is
    unsubscribed, the exception is handed to [hostReportError], which
    throws it from a timer of the host, and [next] returns, so that the
    subject goes on to its other observers.  An exception of a subscriber
    never reaches the caller of [next], and the subscriber receives nothing
    afterwards.  On a menu that has been initialized and given a structure
    no subscriber throws (lemma [dispatch_ready]). *)

(** [this._dragging$.subscribe(drag => ...)]: the callback. *)
Definition on_dragging (drag : DragDefinition) (m : Menu) : Outcome :=
  let* m := display m in
  let m := set_markingMode (negb (bool_decide (state drag = END))) m in
  Done (set_trace (_trace m ++ [TraceUpdate (position drag)]) m).

(** [this._click$.subscribe(e => ...)]: the callback. *)
Definition on_click (e : ClickState) (m : Menu) : Outcome :=
  if bool_decide (e = LEFT_CLICK) then display m else Done m.

(** A value of [_dragging$] reaches the subscriber of the menu, when it is
    still subscribed; if the callback throws, the menu is as the callback
    left it, the subscriber is unsubscribed and the exception is reported
    to the host. *)
Definition deliver_drag (drag : DragDefinition) (m : Menu) : Menu :=
  if draggingSubscribed m then
    match on_dragging drag m with
    | Done m => m
    | Thrown e m =>
        set_reportedErrors (reportedErrors m ++ [e]) (set_draggingSubscribed false m)
    end
  else m.

(** The same for a value of [_click$]. *)
Definition deliver_click (e : ClickState) (m : Menu) : Menu :=
  if clickSubscribed m then
    match on_click e m with
    | Done m => m
    | Thrown err m =>
        set_reportedErrors (reportedErrors m ++ [err]) (set_clickSubscribed false m)
    end
  else m.

(** [this._dragging$.next(drag)]: the value is emitted, to the subscriber of
    the menu among others, and [next] returns. *)
Definition dragging_next (drag : DragDefinition) (m : Menu) : Outcome :=
  match _dragging m with
  | None => Thrown (TypeError "Cannot read properties of undefined (reading 'next')") m
  | Some s => Done (deliver_drag drag (set_dragging (Some (s ++ [drag])) m))
  end.

(** [this._click$.next(e)]. *)
Definition click_next (e : ClickState) (m : Menu) : Outcome :=
  match _click m with
  | None => Thrown (TypeError "Cannot read properties of undefined (reading 'next')") m
  | Some s => Done (deliver_click e (set_click (Some (s ++ [e])) m))
  end.

(** The callback given to [finalize]. *)
Definition finalize_drag (m : Menu) : Outcome :=
  if _markingMode m then
    let m := set_markingMode false m in
    dragging_next {| position := get_inputPosition m; state := END |} m
  else Done m.

(** The [map] of the click pipeline. *)
Definition classify_click (e : Input) : ClickState :=
  if strict_eq_number (button e) 0%float then LEFT_CLICK else RIGHT_CLICK.

(** Whether the inner observable of [switchMap] is subscribed. *)
Definition drag_inner_active (m : Menu) : bool :=
  bool_decide (DragStop ∈ deactivationObservers m).

Definition without_drag_stop (l : list DeactivationObserver) : list DeactivationObserver :=
  filter (fun o => o ≠ DragStop) l.

(** [switchMap] unsubscribes the inner observable it holds, which runs its
    [finalize] callback. *)
Definition unsubscribe_drag_inner (m : Menu) : Outcome :=
  if drag_inner_active m then
    finalize_drag
      (set_deactivationObservers (without_drag_stop (deactivationObservers m)) m)
  else Done m.

(** *** The three input subjects *)

(** [this.inputActivation$.next(e)]: the drag pipeline was subscribed first,
    the click pipeline second. *)
Definition inputActivation_next (e : Input) (m : Menu) : Outcome :=
  if observablesSetUp m then
    let* m :=
      if strict_eq_number (buttons e) 1%float then
        let* m := unsubscribe_drag_inner m in
        Done (set_deactivationObservers (deactivationObservers m ++ [DragStop]) m)
      else Done m in
    Done (set_deactivationObservers
            (deactivationObservers m ++ [ClickWait INPUT_TIMEOUT]) m)
  else Done m.

(** [this.inputDeactivation$.next(e)] notifies the observers it had when
    the call began: [seen] are the ones already notified, as they are now,
    and [todo] the ones still to notify.  [takeUntil] completes the inner
    observable of [switchMap], which runs [finalize]; [timeoutWith]
    schedules its timer again and passes the value on to [map] and
    [_click$]. *)
Fixpoint notify_deactivation (e : Input) (seen todo : list DeactivationObserver)
    (m : Menu) : Outcome :=
  match todo with
  | [] => Done m
  | DragStop :: rest =>
      let* m := finalize_drag (set_deactivationObservers (seen ++ rest) m) in
      notify_deactivation e seen rest m
  | ClickWait _ :: rest =>
      let seen := seen ++ [ClickWait INPUT_TIMEOUT] in
      let* m := click_next (classify_click e)
                  (set_deactivationObservers (seen ++ rest) m) in
      notify_deactivation e seen rest m
  end.

Definition inputDeactivation_next (e : Input) (m : Menu) : Outcome :=
  if observablesSetUp m then notify_deactivation e [] (deactivationObservers m) m
  else Done m.

(** [this.inputPosition$.next(position)]: the subscriber that stores the
    position was subscribed by [setupObservables], the inner observable of
    [switchMap] at a later activation. *)
Definition inputPosition_next (p : Point) (m : Menu) : Outcome :=
  if observablesSetUp m then
    let m := set_inputPosition p m in
    if drag_inner_active m
    then dragging_next {| position := p; state := DRAGGING |} m
    else Done m
  else Done m.

(** Time passes by [d] units: the timers that are due fire, and their
    [timeoutWith] leaves [inputDeactivation$].  A timer that is due at the
    very time of a deactivation is taken to fire before it. *)
Definition tick (d : nat) (o : DeactivationObserver) : option DeactivationObserver :=
  match o with
  | DragStop => Some DragStop
  | ClickWait remaining =>
      if remaining <=? d then None else Some (ClickWait (remaining - d))
  end.

Definition elapse (d : nat) (m : Menu) : Menu :=
  set_deactivationObservers (omap (tick d) (deactivationObservers m)) m.

(** What reaches the menu from outside. *)
Inductive InputEvent : Type :=
| Activation (e : Input)
| Deactivation (e : Input)
| Position (p : Point)
| Elapse (d : nat).

Definition dispatch (ev : InputEvent) (m : Menu) : Outcome :=
  match ev with
  | Activation e => inputActivation_next e m
  | Deactivation e => inputDeactivation_next e m
  | Position p => inputPosition_next p m
  | Elapse d => Done (elapse d m)
  end.

(** A sequence of input events, oldest first. *)
Fixpoint run (evs : list InputEvent) (m : Menu) : Outcome :=
  match evs with
  | [] => Done m
  | ev :: rest => let* m := dispatch ev m in run rest m
  end.

(** *** [init] *)

(** [setupCanvas()]. *)
Definition setupCanvas (m : Menu) : Outcome :=
  match _root m with
  | None =>
      Thrown (Error ("Root element '" +:+ _rootSelector m +:+ "' missing.")) m
  | Some _ =>
      Done (set_canvas
              (Some {| attributes := {[ "data-paper-resize" := "true"; "tabindex" := "1" ]};
                       style := {[ "touch-action" := "none"; "outline" := "none" ]} |}) m)
  end.

(** [setupScope()]; [this.canvas] is the accessor, which may throw. *)
Definition setupScope (m : Menu) : Outcome :=
  let m := set_scope (Some {| insertItems := false; applyMatrix := false;
                              viewSize := None |}) m in
  match get_canvas m with
  | Throw e => Thrown e m
  | Ok _ => Done m
  end.

(** [setupObservables()]: from here on the three input subjects have the
    subscribers modelled above, and [_dragging$] and [_click$] have the
    subscribers of the menu. *)
Definition setupObservables (m : Menu) : Menu :=
  set_clickSubscribed true (set_draggingSubscribed true (set_observablesSetUp true m)).

(** [resize()], in a page (where [window] is defined). *)
Definition resize (w : Browser) (m : Menu) : Outcome :=
  match _scope m with
  | None => Thrown (TypeError "Cannot read properties of undefined (reading 'project')") m
  | Some scope =>
      Done (set_scope
              (Some {| insertItems := insertItems scope;
                       applyMatrix := applyMatrix scope;
                       viewSize := Some (mkSize (innerWidth w) (innerHeight w)) |}) m)
  end.

(** [init()].  The listeners it registers on the window and on the canvas
    belong to the page: what they deliver arrives as [InputEvent]s.  A
    second call would subscribe the pipelines a second time, which
    [observablesSetUp] does not count: the statements about input events are
    about menus on which [init()] has run once. *)
Definition init (w : Browser) (m : Menu) : Outcome :=
  match querySelector w (_rootSelector m) with
  | None =>
      Thrown (Error ("No element matching '" +:+ _rootSelector m +:+ "' found.")) m
  | Some root =>
      let m := set_root (Some root) m in
      let* m := setupCanvas m in
      let* m := setupScope m in
      let m := setupObservables m in
      let* m := resize w m in
      Done (set_traceVisGroup (Some []) m)
  end.

(** *** Sessions *)

(** What a client does with an initialized menu: it sets a structure, it
    displays the menu, or the page delivers an input event. *)
Inductive Call : Type :=
| CallSetStructure (structure : MenuItem)
| CallDisplay
| CallInput (ev : InputEvent).

Definition perform (c : Call) (m : Menu) : Outcome :=
  match c with
  | CallSetStructure structure => Done (setStructure structure m)
  | CallDisplay => display m
  | CallInput ev => dispatch ev m
  end.

Fixpoint session (calls : list Call) (m : Menu) : Outcome :=
  match calls with
  | [] => Done m
  | c :: rest => let* m := perform c m in session rest m
  end.

(** What a subscriber of [dragging$] and of [click$] has received. *)
Definition dragging_log (m : Menu) : list DragDefinition := default [] (_dragging m).
Definition click_log (m : Menu) : list ClickState := default [] (_click m).

(** *** A page, the settings of the builder, and a menu in use *)

Definition page : Browser :=
  {| querySelector := fun selector =>
       if bool_decide (selector = "#canvas") then Some "div#canvas" else None;
     innerWidth := 1280%float;
     innerHeight := 720%float |}.

(** The settings [builder.js] passes to the menu, with the resizing on window
    events off. *)
Definition builder_settings : Settings :=
  {| main := {| minDistance := 150%float;
                minTraceDistance := 175%float;
                animationDuration := 250%float;
                enableMaxClickRadius := false;
                enableAutoResize := false |} |}.

Definition parsed_root : MenuItem :=
  {| item_state := NONE;
     item_visible := true;
     item_position := ZERO_POINT;
     item_settings := None;
     item_selection := [];
     item_calls := [] |}.

(** [menu = new Menu('#canvas', settings); menu.init();
    menu.setStructure(root)]. *)
Definition builder_menu : Menu :=
  setStructure parsed_root (menu_of (init page (Menu_new "#canvas" builder_settings))).

(** A press of the primary button, and its release. *)
Definition primary_down : Input := {| button := 0%float; buttons := 1%float |}.
Definition primary_up : Input := {| button := 0%float; buttons := 0%float |}.

End MenuModel.

(** ** The angle utility *)

Module AngleSpec.

(** The representative of [x] modulo 360 in [0, 360). *)
Definition wrap360 (x : Q) : Q := (x - 360 * inject_Z (Qfloor (x / 360)))%Q.

(** Modelled from the spec: [Angle.difference], of [utlis/angle], which is
    not part of the sources at hand.  The spec describes [difference(a, b)]
    as the signed angular delta in (-180, 180], the shortest-path difference
    of two directions, its sign the rotational direction.  Directions are
    finite, in degrees; they are modelled as rationals. *)
Definition difference (a b : Q) : Q :=
  let d := wrap360 (a - b)%Q in
  if Qlt_le_dec 180 d then (d - 360)%Q else d.

End AngleSpec.

(** * Specification vocabulary *)

Module MenuSpec.

Import MenuModel.

(** The menu after [init()] and [setStructure()]: the pipelines are
    subscribed, the root item and the group of the trace visualization
    exist, and so do the two subjects made by the constructor. *)
Definition ready (m : Menu) : Prop :=
  observablesSetUp m = true /\ is_Some (_rootItem m) /\ is_Some (_traceVisGroup m)
  /\ is_Some (_click m) /\ is_Some (_dragging m).

(** A ready menu at rest, as it is when no input has arrived yet: nothing
    observes [inputDeactivation$] and the marking mode is off. *)
Definition fresh (m : Menu) : Prop :=
  ready m /\ deactivationObservers m = [] /\ _markingMode m = false.

(** A menu on which [setStructure] has not been called: it was constructed,
    and since then [init()], [display()] and input events may have
    happened, each returning or throwing. *)
Inductive before_setStructure : Menu -> Prop :=
| bs_new (sel : string) (st : Settings) : before_setStructure (Menu_new sel st)
| bs_init (w : Browser) (m : Menu) :
    before_setStructure m -> before_setStructure (menu_of (init w m))
| bs_display (m : Menu) :
    before_setStructure m -> before_setStructure (menu_of (display m))
| bs_input (ev : InputEvent) (m : Menu) :
    before_setStructure m -> before_setStructure (menu_of (dispatch ev m)).

(** A menu a client can reach: the constructor, then any calls and input
    events, each returning or throwing. *)
Inductive reachable : Menu -> Prop :=
| r_new (sel : string) (st : Settings) : reachable (Menu_new sel st)
| r_init (w : Browser) (m : Menu) : reachable m -> reachable (menu_of (init w m))
| r_setStructure (structure : MenuItem) (m : Menu) :
    reachable m -> reachable (setStructure structure m)
| r_display (m : Menu) : reachable m -> reachable (menu_of (display m))
| r_input (ev : InputEvent) (m : Menu) :
    reachable m -> reachable (menu_of (dispatch ev m)).

(** The two subjects made by the constructor are there. *)
Definition subjects_defined (m : Menu) : Prop := is_Some (_click m) /\ is_Some (_dragging m).

(** [this._rootItem === undefined]. *)
Definition no_root (m : Menu) : Prop := _rootItem m = None.

(** The activation carries the primary button: [e.buttons === 1]. *)
Definition is_primary (e : Input) : bool := strict_eq_number (buttons e) 1%float.

(** *** Histories of input events, oldest first *)

Definition ends_drag (ev : InputEvent) : bool :=
  match ev with Deactivation _ => true | _ => false end.

Definition starts_drag (ev : InputEvent) : bool :=
  match ev with Activation e => is_primary e | _ => false end.

(** A drag is in progress: some activation of the primary button has not
    been followed by a deactivation. *)
Definition drag_in_progress (evs : list InputEvent) : Prop :=
  exists pre e post,
    evs = pre ++ Activation e :: post /\ is_primary e = true
    /\ Forall (fun ev => ends_drag ev = false) post.

(** The drag in progress has been sampled: some activation of the primary
    button has been followed by a position sample with no deactivation in
    between, and by neither a deactivation nor another activation of the
    primary button since that sample. *)
Definition sampled_drag (evs : list InputEvent) : Prop :=
  exists pre e mid p post,
    evs = pre ++ Activation e :: mid ++ Position p :: post /\ is_primary e = true
    /\ Forall (fun ev => ends_drag ev = false) mid
    /\ Forall (fun ev => ends_drag ev = false /\ starts_drag ev = false) post.

(** The last position sample among [calls], or [current] when there is
    none. *)
Fixpoint last_sample (calls : list Call) (current : Point) : Point :=
  match calls with
  | [] => current
  | CallInput (Position p) :: rest => last_sample rest p
  | _ :: rest => last_sample rest current
  end.

(** Position samples and the passing of time, and the time that passes in a
    sequence of events. *)
Definition passive (ev : InputEvent) : bool :=
  match ev with Position _ | Elapse _ => true | _ => false end.

Fixpoint elapsed (evs : list InputEvent) : nat :=
  match evs with
  | [] => 0
  | Elapse d :: rest => d + elapsed rest
  | _ :: rest => elapsed rest
  end.

(** The time left on the timers of the click pipeline. *)
Definition waits (l : list DeactivationObserver) : list nat :=
  omap (fun o => match o with DragStop => None | ClickWait r => Some r end) l.

(** The distance between two points, as the specification speaks of the
    travel of a drag. *)
Definition travelled (origin p : Point) : number :=
  let dx := PrimFloat.sub (point_x p) (point_x origin) in
  let dy := PrimFloat.sub (point_y p) (point_y origin) in
  PrimFloat.sqrt (PrimFloat.add (PrimFloat.mul dx dx) (PrimFloat.mul dy dy)).

(** A position on the page, and the root item of [builder_menu]. *)
Definition sample_point : Point := mkPoint 640%float 360%float.

Definition structured_root : MenuItem :=
  {| item_state := NONE;
     item_visible := false;
     item_position := ZERO_POINT;
     item_settings := Some builder_settings;
     item_selection := [];
     item_calls := [ItemInit] |}.

(** [builder_menu] after a press of the primary button. *)
Definition pressed_menu : Menu := menu_of (run [Activation primary_down] builder_menu).

(** The menu of the builder when the user has pressed, moved and released
    the pointer on the canvas, and 200 time units have passed, between
    [init()] and [setStructure()]. *)
Definition early_menu : Menu :=
  setStructure parsed_root
    (menu_of (run [Activation primary_down; Position sample_point;
                   Deactivation primary_up; Elapse 200]
                  (menu_of (init page (Menu_new "#canvas" builder_settings))))).

End MenuSpec.

(** * The input pipeline, seen through the fields it reads and writes

    What the three input subjects do to a ready menu depends only on the
    last input position, the marking mode, the observers of
    [inputDeactivation$], the two output subjects and whether the
    subscriber of [_dragging$] is still subscribed, and changes nothing else
    that they read.  [view] projects a menu on these fields and
    [v_step] is [dispatch] on the projection; the lemma [dispatch_ready]
    below relates the two. *)

Module InputView.

Import MenuModel MenuSpec.

Record View : Type := mkView {
  v_position : Point;
  v_marking : bool;
  v_observers : list DeactivationObserver;
  v_drags : list DragDefinition;
  v_clicks : list ClickState;
  (** whether the subscriber of [_dragging$] is still subscribed *)
  v_live : bool
}.

Definition view (m : Menu) : View :=
  {| v_position := _inputPosition m;
     v_marking := _markingMode m;
     v_observers := deactivationObservers m;
     v_drags := dragging_log m;
     v_clicks := click_log m;
     v_live := draggingSubscribed m |}.

Definition v_set_marking (b : bool) (v : View) : View :=
  mkView (v_position v) b (v_observers v) (v_drags v) (v_clicks v) (v_live v).

Definition v_emit_drag (d : DragDefinition) (v : View) : View :=
  mkView (v_position v)
         (if v_live v then negb (bool_decide (state d = END)) else v_marking v)
         (v_observers v) (v_drags v ++ [d]) (v_clicks v) (v_live v).

Definition v_emit_click (c : ClickState) (v : View) : View :=
  mkView (v_position v) (v_marking v) (v_observers v) (v_drags v) (v_clicks v ++ [c])
         (v_live v).

Definition v_set_observers (l : list DeactivationObserver) (v : View) : View :=
  mkView (v_position v) (v_marking v) l (v_drags v) (v_clicks v) (v_live v).

Definition v_finalize (v : View) : View :=
  if v_marking v
  then v_emit_drag (mkDrag (v_position v) END) (v_set_marking false v)
  else v.

Definition v_activation (e : Input) (v : View) : View :=
  let v1 :=
    if is_primary e then
      let v' := if bool_decide (DragStop ∈ v_observers v)
                then v_finalize (v_set_observers (without_drag_stop (v_observers v)) v)
                else v in
      v_set_observers (v_observers v' ++ [DragStop]) v'
    else v in
  v_set_observers (v_observers v1 ++ [ClickWait INPUT_TIMEOUT]) v1.

Fixpoint v_notify (e : Input) (seen todo : list DeactivationObserver) (v : View) : View :=
  match todo with
  | [] => v
  | DragStop :: rest => v_notify e seen rest (v_finalize (v_set_observers (seen ++ rest) v))
  | ClickWait _ :: rest =>
      let seen := seen ++ [ClickWait INPUT_TIMEOUT] in
      v_notify e seen rest
        (v_emit_click (classify_click e) (v_set_observers (seen ++ rest) v))
  end.

Definition v_position_next (p : Point) (v : View) : View :=
  let v := mkView p (v_marking v) (v_observers v) (v_drags v) (v_clicks v) (v_live v) in
  if bool_decide (DragStop ∈ v_observers v) then v_emit_drag (mkDrag p DRAGGING) v else v.

Definition v_step (ev : InputEvent) (v : View) : View :=
  match ev with
  | Activation e => v_activation e v
  | Deactivation e => v_notify e [] (v_observers v) v
  | Position p => v_position_next p v
  | Elapse d => v_set_observers (omap (tick d) (v_observers v)) v
  end.

Definition v_run (evs : list InputEvent) (v : View) : View :=
  fold_left (fun v ev => v_step ev v) evs v.

(** The timers of the click pipeline after a deactivation: each is
    scheduled again, and [takeUntil] is gone. *)
Definition rearm (todo : list DeactivationObserver) : list DeactivationObserver :=
  omap (fun o => match o with
                 | DragStop => None
                 | ClickWait _ => Some (ClickWait INPUT_TIMEOUT)
                 end) todo.

End InputView.

(** * The life of a menu: vocabulary

    What the statements about [init], [resize], the [canvas] accessor,
    [display] and the two output streams over whole histories are stated
    with. *)

Module MenuHistory.

Import MenuModel MenuSpec InputView.

(** A menu on which [init()] has not succeeded: it was constructed, and
    since then [init()] has found no root element, and [setStructure],
    [display()] and input events may have happened. *)
Inductive uninitialized : Menu -> Prop :=
| un_new (sel : string) (st : Settings) : uninitialized (Menu_new sel st)
| un_init (w : Browser) (m : Menu) :
    uninitialized m -> querySelector w (_rootSelector m) = None ->
    uninitialized (menu_of (init w m))
| un_setStructure (structure : MenuItem) (m : Menu) :
    uninitialized m -> uninitialized (setStructure structure m)
| un_display (m : Menu) : uninitialized m -> uninitialized (menu_of (display m))
| un_input (ev : InputEvent) (m : Menu) :
    uninitialized m -> uninitialized (menu_of (dispatch ev m)).

(** A menu on which [init()] has returned, and what has happened to it
    since. *)
Inductive initialized : Menu -> Prop :=
| in_init (w : Browser) (m m' : Menu) : init w m = Done m' -> initialized m'
| in_setStructure (structure : MenuItem) (m : Menu) :
    initialized m -> initialized (setStructure structure m)
| in_display (m : Menu) : initialized m -> initialized (menu_of (display m))
| in_input (ev : InputEvent) (m : Menu) :
    initialized m -> initialized (menu_of (dispatch ev m)).

(** Nothing of what [init()] sets up is there. *)
Definition bare (m : Menu) : Prop :=
  _root m = None /\ _canvas m = None /\ _scope m = None
  /\ observablesSetUp m = false /\ deactivationObservers m = [].

Definition has_canvas (m : Menu) : Prop := is_Some (_canvas m).

(** The canvas and the scope as [init()] leaves them in the window [w]. *)
Definition fresh_canvas : Canvas :=
  {| attributes := {[ "data-paper-resize" := "true"; "tabindex" := "1" ]};
     style := {[ "touch-action" := "none"; "outline" := "none" ]} |}.

Definition sized_scope (w : Browser) : PaperScope :=
  {| insertItems := false; applyMatrix := false;
     viewSize := Some (mkSize (innerWidth w) (innerHeight w)) |}.

(** The root item as [display()] shows it at [p]. *)
Definition shown_at (p : Point) (item : MenuItem) : MenuItem :=
  {| item_state := ACTIVE;
     item_visible := true;
     item_position := p;
     item_settings := item_settings item;
     item_selection := item_selection item;
     item_calls := item_calls item ++ [ItemRedraw] |}.

Definition hidden (item : MenuItem) : Prop :=
  item_state item = HIDDEN \/ item_state item = NONE.


(** The positions the trace has been updated with, oldest first. *)
Definition updates (t : Trace) : list Point :=
  omap (fun c => match c with TraceUpdate p => Some p | TraceReset => None end) t.

(** From [m] to [m'] the drag stream has emitted [new]; when the subscriber
    of the menu is subscribed it still is and the trace has been updated
    with the positions of [new], in order, and when it is gone the trace
    has not been updated. *)
Definition forwards (m m' : Menu) : Prop :=
  draggingSubscribed m' = draggingSubscribed m
  /\ exists new,
       dragging_log m' = dragging_log m ++ new
       /\ updates (_trace m')
          = updates (_trace m) ++ if draggingSubscribed m then map position new else [].

(** The outcome [r] of a step from [m]: it returns a ready menu, to which
    [m] forwards. *)
Definition steps (m : Menu) (r : Outcome) : Prop :=
  exists m', r = Done m' /\ ready m' /\ forwards m m'.

(** Every [END] of a drag stream comes right after a [DRAGGING] at the same
    position. *)
Definition closes_a_run (log : list DragDefinition) : Prop :=
  forall pre d post,
    log = pre ++ d :: post -> state d = END ->
    exists pre' d', pre = pre' ++ [d'] /\ state d' = DRAGGING /\ position d' = position d.

(** In marking mode the last value emitted is a [DRAGGING] at the last
    input position. *)
Definition run_open (v : View) (new : list DragDefinition) : Prop :=
  v_marking v = true ->
  exists pre' d', new = pre' ++ [d'] /\ state d' = DRAGGING /\ position d' = v_position v.

Definition is_activation (ev : InputEvent) : bool :=
  match ev with Activation _ => true | _ => false end.

(** The number of activations in a sequence of events. *)
Fixpoint activations (evs : list InputEvent) : nat :=
  match evs with
  | [] => 0
  | Activation _ :: rest => S (activations rest)
  | _ :: rest => activations rest
  end.

(** The menu of the builder before [init()], and after [display()]. *)
Definition new_menu : Menu := Menu_new "#canvas" builder_settings.
Definition shown_menu : Menu := menu_of (display builder_menu).

(** A page without the element the menu looks for, and the page in a
    smaller window. *)
Definition empty_page : Browser :=
  {| querySelector := fun _ => None;
     innerWidth := 1280%float;
     innerHeight := 720%float |}.

Definition small_page : Browser :=
  {| querySelector := querySelector page;
     innerWidth := 800%float;
     innerHeight := 600%float |}.

End MenuHistory.

(** * [MenuEvent]: an event that is not equal to itself *)

Module MenuEventSpec.

Import MenuEventModel.

(** A selection whose target has an angle that is not a number. *)
Definition towards_nan : MenuEvent string :=
  {| type := "selection";
     source := {| itemId := "a"; angle := 0%float |};
     target := Some {| itemId := "b"; angle := PrimFloat.nan |};
     data := None |}.

End MenuEventSpec.

(** * [MenuEvent]: equality and construction *)

Module MenuEventFacts.

Import Lodash MenuEventModel.

Lemma baseIsEqual_same_value (a b : prim) : baseIsEqual a b = true <-> same_value a b.
Proof.
  unfold baseIsEqual.
  destruct a as [s|x|p], b as [t|y|q]; simpl;
    repeat match goal with
           | |- context [bool_decide (?z = ?z)] =>
               rewrite (bool_decide_eq_true_2 (z = z)) by reflexivity
           end;
    simpl; rewrite ?andb_false_r, ?orb_false_r;
    try (split; [discriminate | tauto]).
  - apply bool_decide_eq_true.
  - rewrite orb_true_iff, andb_true_iff, !negb_true_iff. tauto.
  - apply bool_decide_eq_true.
Qed.

(** Every key of [x] is a key of [y] with an equal value. *)
Lemma equalObjects_included (x y : gmap string prim) :
  equalObjects x y = true ->
  forall k v, x !! k = Some v -> exists w, y !! k = Some w /\ same_value v w.
Proof.
  unfold equalObjects. rewrite andb_true_iff, forallb_forall.
  intros [_ Hall] k v Hkv.
  assert (Hin : In (k, v) (map_to_list x)).
  { apply list_elem_of_In, elem_of_map_to_list, Hkv. }
  specialize (Hall (k, v) Hin). simpl in Hall.
  destruct (y !! k) as [w|]; [|discriminate].
  exists w. split; [reflexivity|]. apply baseIsEqual_same_value, Hall.
Qed.

(** The count of keys turns the inclusion into an equality of key sets. *)
Lemma equalObjects_lookup (x y : gmap string prim) :
  equalObjects x y = true <->
  forall k : string, option_Forall2 same_value (x !! k) (y !! k).
Proof.
  split.
  - intros Heq. pose proof (equalObjects_included x y Heq) as Hin.
    assert (Hdom : dom x = dom y).
    { apply set_subseteq_size_eq.
      - intros k Hk. apply elem_of_dom in Hk as [v Hv].
        destruct (Hin k v Hv) as (w & Hw & _). apply elem_of_dom. eauto.
      - unfold equalObjects in Heq. apply andb_true_iff in Heq as [Hsize _].
        apply bool_decide_eq_true in Hsize. rewrite !size_dom. lia. }
    intros k. destruct (x !! k) as [v|] eqn:Hx.
    + destruct (Hin k v Hx) as (w & -> & Hvw). by constructor.
    + assert (y !! k = None) as ->; [|constructor].
      apply not_elem_of_dom. rewrite <- Hdom. by apply not_elem_of_dom.
  - intros Hall. unfold equalObjects.
    rewrite andb_true_iff, bool_decide_eq_true, forallb_forall. split.
    + rewrite <- !size_dom. f_equal. apply set_eq. intros k.
      rewrite !elem_of_dom. specialize (Hall k).
      destruct Hall; split; intros [? ?]; (discriminate || eauto).
    + intros [k v] Hkv. simpl.
      apply list_elem_of_In, elem_of_map_to_list in Hkv.
      specialize (Hall k). rewrite Hkv in Hall.
      inversion Hall as [? w Hvw|]; subst.
      by apply baseIsEqual_same_value.
Qed.

(** [isEqual] on two payloads is deep equality: both are [undefined], or both
    are records with the same keys holding the same values. *)
Theorem isEqual_deep_equal (a b : option (gmap string prim)) :
  isEqual a b = true <-> deep_equal a b.
Proof.
  destruct a as [x|], b as [y|]; simpl.
  - apply equalObjects_lookup.
  - split; [discriminate|tauto].
  - split; [discriminate|tauto].
  - tauto.
Qed.

Lemma dataEquals_deep_equal {T : Type} (event this : MenuEventModel.MenuEvent T) :
  isEqual (data event) (data this) = true <-> deep_equal (data event) (data this).
Proof.
  destruct (data event) as [x|], (data this) as [y|]; simpl;
    [apply equalObjects_lookup| | |]; (split; [discriminate || tauto|tauto]).
Qed.

Lemma targetEquals_agree (a b : option MenuIdentifier) :
  match a, b with
  | Some x, Some y =>
      bool_decide (itemId x = itemId y) && strict_eq_number (angle x) (angle y)
  | _, _ => true
  end = true <-> targets_agree a b.
Proof.
  unfold targets_agree. destruct a as [x|], b as [y|].
  - rewrite andb_true_iff, bool_decide_eq_true. split.
    + intros H ? ? [= <-] [= <-]. exact H.
    + intros H. apply H; reflexivity.
  - split; [intros _ ? ? _ [=]|reflexivity].
  - split; [intros _ ? ? [=]|reflexivity].
  - split; [intros _ ? ? [=]|reflexivity].
Qed.

(** C1, as the code has it.  [e1.equals(e2)] is true exactly when the types
    are equal, the [itemId]s of the sources are equal, the targets have
    equal [itemId]s and [===] angles whenever both events carry a target (an
    event without a target agrees with any target), and the payloads are
    deeply equal; the angle of either source is never consulted; and
    [equals()] without an argument is false. *)
Theorem equals_iff {T : Type} `{EqDecision T} (e1 e2 : MenuEvent T) :
  (equals e1 (Some e2) = true <->
     type e1 = type e2
     /\ itemId (source e1) = itemId (source e2)
     /\ targets_agree (target e2) (target e1)
     /\ deep_equal (data e2) (data e1))
  /\ (forall a1 a2 : number,
        equals (with_source_angle a1 e1) (Some (with_source_angle a2 e2))
        = equals e1 (Some e2))
  /\ equals e1 None = false.
Proof.
  split; [|split; reflexivity].
  unfold equals.
  rewrite !andb_true_iff, !bool_decide_eq_true, targetEquals_agree, dataEquals_deep_equal.
  split.
  - intros [[[Hty Htg] Hsrc] Hdata]. auto.
  - intros (Hty & Hsrc & Htg & Hdata). auto.
Qed.

(** C1, as the specification has it, fails: an event that carries a target
    equals one that carries none, although their targets do not match. *)
Lemma equals_with_one_target_absent :
  equals towards_b (Some towards_nothing) = true
  /\ targets_match (target towards_b) (target towards_nothing) = false.
Proof. split; reflexivity. Qed.

(** The angle of the source plays no part, and one more key in the payload
    makes two events differ. *)
Example equals_other_source_angle :
  equals towards_b (Some (with_source_angle 180%float towards_b)) = true.
Proof. reflexivity. Qed.

Example equals_one_more_key :
  equals (mkMenuEvent "selection" (mkMenuIdentifier "a" 0%float) None
            (Some {[ "selected" := PBoolean true ]}))
         (Some (mkMenuEvent "selection" (mkMenuIdentifier "a" 0%float) None
                  (Some {[ "selected" := PBoolean true; "min" := PNumber 0%float ]})))
  = false.
Proof. vm_compute. reflexivity. Qed.

(** C7.  A constructed event carries the [itemId]s it was given and, as
    angles, [Angle.toDeg] of the angles it was given, on its source and on
    its target when there is one: every angle on the event is a value of
    [Angle.toDeg]. *)
Theorem MenuEvent_new_angles (toDeg : number -> number) {T : Type} (type0 : T)
    (source0 : MenuIdentifier) (target0 : option MenuIdentifier)
    (data0 : option (gmap string prim)) :
  source (MenuEvent_new toDeg type0 source0 target0 data0)
  = {| itemId := itemId source0; angle := toDeg (angle source0) |}
  /\ target (MenuEvent_new toDeg type0 source0 target0 data0)
     = (fun t => {| itemId := itemId t; angle := toDeg (angle t) |}) <$> target0
  /\ type (MenuEvent_new toDeg type0 source0 target0 data0) = type0
  /\ data (MenuEvent_new toDeg type0 source0 target0 data0) = data0
  /\ (exists r, angle (source (MenuEvent_new toDeg type0 source0 target0 data0)) = toDeg r)
  /\ match target (MenuEvent_new toDeg type0 source0 target0 data0) with
     | Some t => exists r, angle t = toDeg r
     | None => target0 = None
     end.
Proof.
  split; [reflexivity|]. split; [destruct target0; reflexivity|].
  split; [reflexivity|]. split; [reflexivity|]. split; [eexists; reflexivity|].
  destruct target0; simpl; [eexists; reflexivity|reflexivity].
Qed.

End MenuEventFacts.

(** * The angular difference *)

Module AngleFacts.

Import AngleSpec.

Local Open Scope Q_scope.

Lemma wrap360_range (x : Q) : 0 <= wrap360 x /\ wrap360 x < 360.
Proof.
  unfold wrap360.
  pose proof (Qfloor_le (x / 360)) as Hlo.
  pose proof (Qlt_floor (x / 360)) as Hhi.
  rewrite inject_Z_plus in Hhi. change (inject_Z 1) with 1 in Hhi.
  set (f := inject_Z (Qfloor (x / 360))) in *.
  assert (Hx : x == 360 * (x / 360)) by field.
  split; lra.
Qed.

(** [difference a b] is [a - b] up to whole turns, and lies in
    (-180, 180]. *)
Lemma difference_spec (a b : Q) :
  exists k : Z,
    difference a b == a - b - 360 * inject_Z k
    /\ -180 < difference a b /\ difference a b <= 180.
Proof.
  unfold difference.
  destruct (wrap360_range (a - b)) as [Hlo Hhi].
  destruct (Qlt_le_dec 180 (wrap360 (a - b))) as [Hgt|Hle].
  - exists (Qfloor ((a - b) / 360) + 1)%Z.
    rewrite inject_Z_plus. change (inject_Z 1) with 1.
    unfold wrap360 in *. split; [ring|]. split; lra.
  - exists (Qfloor ((a - b) / 360)). unfold wrap360 in *. split; [ring|]. split; lra.
Qed.

(** C8, amended.  For all finite directions, [difference a b] lies in
    (-180, 180] and its absolute value is at most 180;
    [difference a b == - difference b a] holds whenever the two directions
    are not opposite (the difference is not 180), and for opposite
    directions both differences are 180. *)
Theorem difference_range_and_antisymmetry (a b : Q) :
  (-180 < difference a b /\ difference a b <= 180)
  /\ Qabs (difference a b) <= 180
  /\ (~ difference a b == 180 -> difference a b == - difference b a)
  /\ (difference a b == 180 -> difference b a == 180).
Proof.
  destruct (difference_spec a b) as (k1 & Hk1 & Hlo1 & Hhi1).
  destruct (difference_spec b a) as (k2 & Hk2 & Hlo2 & Hhi2).
  split; [split; assumption|]. split.
  { apply Qabs_case; intros; lra. }
  assert (Hsum : difference a b + difference b a == -360 * inject_Z (k1 + k2)).
  { rewrite inject_Z_plus, Hk1, Hk2. ring. }
  assert (Hs : (-1 <= k1 + k2 < 1)%Z).
  { split; [rewrite Zle_Qle|rewrite Zlt_Qlt];
      change (inject_Z (-1)) with (-1); change (inject_Z 1) with 1; lra. }
  assert (Hcases : (k1 + k2 = 0 \/ k1 + k2 = -1)%Z) by lia.
  destruct Hcases as [H0|H1].
  - rewrite H0 in Hsum. change (inject_Z 0) with 0 in Hsum.
    split; intros; lra.
  - rewrite H1 in Hsum. change (inject_Z (-1)) with (-1) in Hsum.
    split; intros; lra.
Qed.

Lemma difference_range_and_antisymmetry_witness :
  Qeq_bool (difference 10 350) 180 = false
  /\ difference 10 350 == - difference 350 10
  /\ -180 < difference 10 350 /\ difference 10 350 <= 180.
Proof.
  destruct (difference_range_and_antisymmetry 10 350) as ((Hlo & Hhi) & _ & Hanti & _).
  split; [reflexivity|]. split; [|split; assumption].
  apply Hanti. intros H. discriminate H.
Defined.

(** C8, as the specification has it, fails for opposite directions: both
    differences are 180, which is not its own negation. *)
Lemma difference_of_opposite_directions :
  Qeq_bool (difference 0 180) (- difference 180 0) = false
  /\ difference 0 180 == 180 /\ difference 180 0 == 180.
Proof. repeat split. Qed.

(** No function into (-180, 180] that gives opposite directions a
    difference of magnitude 180 is antisymmetric. *)
Lemma no_antisymmetric_difference (f : Q -> Q -> Q) :
  (forall a b, -180 < f a b) -> (forall a b, f a b == - f b a) ->
  Qabs (f 0 180) == 180 -> False.
Proof.
  intros Hrange Hanti Habs.
  pose proof (Hrange 0 180) as H1. pose proof (Hrange 180 0) as H2.
  pose proof (Hanti 0 180) as H3.
  revert Habs. apply Qabs_case; intros; lra.
Qed.

End AngleFacts.

(** * The menu *)

Module MenuFacts.

Import MenuModel MenuSpec InputView.

(** ** What the pipelines leave alone

    The lemmas of this section hold of every menu, initialized or not, and
    of every outcome, returned or thrown. *)

Ltac open_menu m :=
  destruct m as [sel st pos clk drg rt cv sc ri fa tr tg mk su obs dsub csub errs].

Section Frame.

(** A property of the menu that no assignment made by [display] or by the
    subscribers of the pipelines disturbs. *)
Variable P : Menu -> Prop.
Hypothesis P_trace : forall v m, P m -> P (set_trace v m).
Hypothesis P_traceVisGroup : forall v m, P m -> P (set_traceVisGroup v m).
Hypothesis P_fadeAnimation : forall v m, P m -> P (set_fadeAnimation v m).
Hypothesis P_rootItem : forall f m, P m -> P (on_rootItem f m).
Hypothesis P_markingMode : forall v m, P m -> P (set_markingMode v m).
Hypothesis P_dragging : forall s m, P m -> P (set_dragging (Some s) m).
Hypothesis P_click : forall s m, P m -> P (set_click (Some s) m).
Hypothesis P_observers : forall v m, P m -> P (set_deactivationObservers v m).
Hypothesis P_draggingSubscribed : forall v m, P m -> P (set_draggingSubscribed v m).
Hypothesis P_clickSubscribed : forall v m, P m -> P (set_clickSubscribed v m).
Hypothesis P_reportedErrors : forall v m, P m -> P (set_reportedErrors v m).

Lemma and_then_frame (r : Outcome) (k : Menu -> Outcome) :
  P (menu_of r) -> (forall m, P m -> P (menu_of (k m))) -> P (menu_of (and_then r k)).
Proof. destruct r; simpl; auto. Qed.

Lemma display_frame (m : Menu) : P m -> P (menu_of (display m)).
Proof.
  intros H. unfold display. destruct (_rootItem m) as [item|]; [|exact H].
  destruct (_ || _); [|exact H].
  destruct (_traceVisGroup (set_trace (_trace m ++ [TraceReset]) m)) as [group|]; simpl; auto 10.
Qed.

Lemma on_dragging_frame (d : DragDefinition) (m : Menu) :
  P m -> P (menu_of (on_dragging d m)).
Proof.
  intros H. unfold on_dragging. apply and_then_frame; [apply display_frame; auto|].
  intros m' H'. simpl. auto.
Qed.

Lemma on_click_frame (c : ClickState) (m : Menu) : P m -> P (menu_of (on_click c m)).
Proof.
  intros H. unfold on_click.
  destruct (bool_decide (c = LEFT_CLICK)); [apply display_frame|simpl]; auto.
Qed.

Lemma deliver_drag_frame (d : DragDefinition) (m : Menu) : P m -> P (deliver_drag d m).
Proof.
  intros H. unfold deliver_drag. destruct (draggingSubscribed m); [|exact H].
  pose proof (on_dragging_frame d m H) as H'.
  destruct (on_dragging d m); simpl in H'; auto.
Qed.

Lemma deliver_click_frame (c : ClickState) (m : Menu) : P m -> P (deliver_click c m).
Proof.
  intros H. unfold deliver_click. destruct (clickSubscribed m); [|exact H].
  pose proof (on_click_frame c m H) as H'.
  destruct (on_click c m); simpl in H'; auto.
Qed.

Lemma dragging_next_frame (d : DragDefinition) (m : Menu) :
  P m -> P (menu_of (dragging_next d m)).
Proof.
  intros H. unfold dragging_next. destruct (_dragging m) as [s|]; [|exact H].
  simpl. apply deliver_drag_frame. auto.
Qed.

Lemma click_next_frame (c : ClickState) (m : Menu) : P m -> P (menu_of (click_next c m)).
Proof.
  intros H. unfold click_next. destruct (_click m) as [s|]; [|exact H].
  simpl. apply deliver_click_frame. auto.
Qed.

Lemma finalize_drag_frame (m : Menu) : P m -> P (menu_of (finalize_drag m)).
Proof.
  intros H. unfold finalize_drag. destruct (_markingMode m); [|exact H].
  apply dragging_next_frame. auto.
Qed.

Lemma notify_deactivation_frame (e : Input) (todo seen : list DeactivationObserver)
    (m : Menu) :
  P m -> P (menu_of (notify_deactivation e seen todo m)).
Proof.
  revert seen m. induction todo as [|o rest IH]; intros seen m H; simpl; [exact H|].
  destruct o as [|r]; apply and_then_frame;
    auto using finalize_drag_frame, click_next_frame.
Qed.

(** Every input event but a position sample. *)
Lemma dispatch_frame (ev : InputEvent) (m : Menu) :
  (forall p, ev <> Position p) -> P m -> P (menu_of (dispatch ev m)).
Proof.
  intros Hev H. destruct ev as [e|e|p|d]; simpl.
  - unfold inputActivation_next. destruct (observablesSetUp m); [|exact H].
    apply and_then_frame; [|intros; simpl; auto].
    destruct (strict_eq_number (buttons e) 1%float); [|exact H].
    apply and_then_frame; [|intros; simpl; auto].
    unfold unsubscribe_drag_inner. destruct (drag_inner_active m); [|exact H].
    apply finalize_drag_frame. auto.
  - unfold inputDeactivation_next. destruct (observablesSetUp m); [|exact H].
    apply notify_deactivation_frame, H.
  - destruct (Hev p eq_refl).
  - unfold elapse. auto.
Qed.

(** A position sample: the assignment of [_inputPosition], then the drag
    pipeline. *)
Lemma inputPosition_next_frame (p : Point) (m : Menu) :
  P (if observablesSetUp m then set_inputPosition p m else m) ->
  P (menu_of (inputPosition_next p m)).
Proof.
  unfold inputPosition_next. destruct (observablesSetUp m); [|auto].
  intros H. destruct (drag_inner_active _); [apply dragging_next_frame|]; exact H.
Qed.

End Frame.

Ltac frame_setter :=
  let m := fresh "m" in
  intros ? m ?; unfold on_rootItem; open_menu m; simpl in *;
  first [assumption | subst; reflexivity].

(** The root item stays unset. *)
Lemma dispatch_no_root (ev : InputEvent) (m : Menu) :
  no_root m -> no_root (menu_of (dispatch ev m)).
Proof.
  intros H.
  destruct ev as [e|e|p|d];
    [apply dispatch_frame; unfold no_root; try discriminate; try exact H; frame_setter
    |apply dispatch_frame; unfold no_root; try discriminate; try exact H; frame_setter
    |
    |apply dispatch_frame; unfold no_root; try discriminate; try exact H; frame_setter].
  change (no_root (menu_of (inputPosition_next p m))).
  apply inputPosition_next_frame; unfold no_root; try frame_setter.
  destruct (observablesSetUp m); [open_menu m|]; exact H.
Qed.

Lemma init_no_root (w : Browser) (m : Menu) :
  no_root m -> no_root (menu_of (init w m)).
Proof.
  intros H. unfold init. open_menu m. simpl in *.
  destruct (querySelector w sel); exact H.
Qed.

Lemma display_no_root (m : Menu) :
  no_root m -> display m = Thrown (Error "Menu not initialized.") m.
Proof. unfold no_root, display. intros ->. reflexivity. Qed.

Lemma before_setStructure_no_root (m : Menu) : before_setStructure m -> no_root m.
Proof.
  induction 1 as [sel st|w m _ IH|m _ IH|ev m _ IH].
  - reflexivity.
  - apply init_no_root, IH.
  - rewrite display_no_root by exact IH. exact IH.
  - apply dispatch_no_root, IH.
Qed.

(** The input position is written by position samples only. *)
Lemma dispatch_inputPosition (ev : InputEvent) (m : Menu) :
  get_inputPosition (menu_of (dispatch ev m))
  = match ev with
    | Position p => if observablesSetUp m then p else get_inputPosition m
    | _ => get_inputPosition m
    end.
Proof.
  set (q := match ev with
            | Position p => if observablesSetUp m then p else get_inputPosition m
            | _ => get_inputPosition m
            end).
  destruct ev as [e|e|p|d];
    [apply (dispatch_frame (fun m => get_inputPosition m = q)); try discriminate;
       try reflexivity; frame_setter
    |apply (dispatch_frame (fun m => get_inputPosition m = q)); try discriminate;
       try reflexivity; frame_setter
    |
    |apply (dispatch_frame (fun m => get_inputPosition m = q)); try discriminate;
       try reflexivity; frame_setter].
  change (get_inputPosition (menu_of (inputPosition_next p m)) = q).
  apply (inputPosition_next_frame (fun m => get_inputPosition m = q)); try frame_setter.
  subst q. destruct (observablesSetUp m); [open_menu m|]; reflexivity.
Qed.

Lemma display_inputPosition (m : Menu) :
  get_inputPosition (menu_of (display m)) = get_inputPosition m.
Proof.
  apply (display_frame (fun m' => get_inputPosition m' = get_inputPosition m));
    try reflexivity; frame_setter.
Qed.

Lemma setStructure_inputPosition (structure : MenuItem) (m : Menu) :
  get_inputPosition (setStructure structure m) = get_inputPosition m.
Proof. open_menu m. reflexivity. Qed.


(** ** A ready menu never throws, and its pipeline is the one of its view *)

Ltac open_ready H m :=
  destruct m as [sel st pos clk drg rt cv sc ri fa tr tg mk su obs dsub csub errs];
  destruct H as (Hsu & [item Hitem] & [grp Hgrp] & [clicks Hclk] & [drags Hdrg]);
  simpl in Hsu, Hitem, Hgrp, Hclk, Hdrg; subst.

Lemma display_ready (m : Menu) :
  ready m -> exists m', display m = Done m' /\ ready m' /\ view m' = view m.
Proof.
  intros H. open_ready H m. unfold display. simpl.
  destruct (bool_decide (item_state item = HIDDEN) || bool_decide (item_state item = NONE));
    eexists; (split; [reflexivity|]); split; try reflexivity;
    unfold ready; simpl; eauto 10.
Qed.

Lemma on_dragging_ready (d : DragDefinition) (m : Menu) :
  ready m ->
  exists m', on_dragging d m = Done m' /\ ready m'
    /\ view m' = v_set_marking (negb (bool_decide (state d = END))) (view m).
Proof.
  intros H. destruct (display_ready m H) as (m1 & Hd & Hr & Hv).
  unfold on_dragging. rewrite Hd. cbn [and_then]. rewrite <- Hv. clear Hd Hv H.
  open_ready Hr m1. eexists. split; [reflexivity|]. split; [|reflexivity].
  unfold ready; simpl; eauto 10.
Qed.

Lemma dragging_next_ready (d : DragDefinition) (m : Menu) :
  ready m ->
  exists m', dragging_next d m = Done m' /\ ready m' /\ view m' = v_emit_drag d (view m).
Proof.
  intros H.
  assert (Hr : exists s, _dragging m = Some s /\ ready (set_dragging (Some (s ++ [d])) m)
             /\ view (set_dragging (Some (s ++ [d])) m)
                = mkView (v_position (view m)) (v_marking (view m)) (v_observers (view m))
                         (v_drags (view m) ++ [d]) (v_clicks (view m)) (v_live (view m))).
  { open_ready H m. eexists. split; [reflexivity|]. split; [|reflexivity].
    unfold ready; simpl; eauto 10. }
  destruct Hr as (s & Hs & Hr & Hv).
  unfold dragging_next, deliver_drag. rewrite Hs.
  change (draggingSubscribed (set_dragging (Some (s ++ [d])) m))
    with (v_live (view (set_dragging (Some (s ++ [d])) m))).
  rewrite Hv. cbn [v_live]. unfold v_emit_drag.
  destruct (v_live (view m)).
  - destruct (on_dragging_ready d _ Hr) as (m' & Hd & Hr' & Hv').
    rewrite Hd. exists m'. split; [reflexivity|]. split; [exact Hr'|].
    rewrite Hv', Hv. reflexivity.
  - eexists. split; [reflexivity|]. split; [exact Hr|]. exact Hv.
Qed.

Lemma click_next_ready (c : ClickState) (m : Menu) :
  ready m ->
  exists m', click_next c m = Done m' /\ ready m' /\ view m' = v_emit_click c (view m).
Proof.
  intros H.
  assert (Hr : exists s, _click m = Some s /\ ready (set_click (Some (s ++ [c])) m)
             /\ view (set_click (Some (s ++ [c])) m) = v_emit_click c (view m)).
  { open_ready H m. eexists. split; [reflexivity|]. split; [|reflexivity].
    unfold ready; simpl; eauto 10. }
  destruct Hr as (s & Hs & Hr & Hv).
  unfold click_next, deliver_click. rewrite Hs. unfold on_click.
  destruct (clickSubscribed _); [|eauto].
  destruct (bool_decide (c = LEFT_CLICK)).
  - destruct (display_ready _ Hr) as (m' & Hd & Hr' & Hv').
    rewrite Hd. exists m'. split; [reflexivity|]. split; [exact Hr'|]. congruence.
  - eauto.
Qed.

Lemma set_observers_ready (l : list DeactivationObserver) (m : Menu) :
  ready m -> ready (set_deactivationObservers l m)
    /\ view (set_deactivationObservers l m) = v_set_observers l (view m).
Proof.
  intros H. open_ready H m. split; [|reflexivity]. unfold ready; simpl; eauto 10.
Qed.

Lemma finalize_drag_ready (m : Menu) :
  ready m ->
  exists m', finalize_drag m = Done m' /\ ready m' /\ view m' = v_finalize (view m).
Proof.
  intros H. unfold finalize_drag, v_finalize.
  destruct (_markingMode m) eqn:Hmk.
  - assert (Hr : ready (set_markingMode false m)
               /\ view (set_markingMode false m) = v_set_marking false (view m)
               /\ get_inputPosition (set_markingMode false m) = v_position (view m)).
    { open_ready H m. split; [|split; reflexivity]. unfold ready; simpl; eauto 10. }
    destruct Hr as (Hr & Hv & Hp).
    destruct (dragging_next_ready (mkDrag (get_inputPosition (set_markingMode false m)) END)
                _ Hr) as (m' & Hd & Hr' & Hv').
    exists m'. split; [exact Hd|]. split; [exact Hr'|].
    rewrite Hv', Hv, Hp. simpl. rewrite Hmk. reflexivity.
  - simpl. rewrite Hmk. eauto.
Qed.

Lemma notify_deactivation_ready (e : Input) (todo seen : list DeactivationObserver) (m : Menu) :
  ready m ->
  exists m', notify_deactivation e seen todo m = Done m' /\ ready m'
    /\ view m' = v_notify e seen todo (view m).
Proof.
  revert seen m. induction todo as [|o rest IH]; intros seen m H; simpl.
  - eauto.
  - destruct o as [|r].
    + destruct (set_observers_ready (seen ++ rest) m H) as (Hr & Hv).
      destruct (finalize_drag_ready _ Hr) as (m1 & Hf & Hr1 & Hv1).
      rewrite Hf. cbn [and_then].
      destruct (IH seen m1 Hr1) as (m' & Hn & Hr' & Hv').
      exists m'. split; [exact Hn|]. split; [exact Hr'|]. rewrite Hv', Hv1, Hv. reflexivity.
    + destruct (set_observers_ready ((seen ++ [ClickWait INPUT_TIMEOUT]) ++ rest) m H)
        as (Hr & Hv).
      destruct (click_next_ready (classify_click e) _ Hr) as (m1 & Hf & Hr1 & Hv1).
      rewrite Hf. cbn [and_then].
      destruct (IH (seen ++ [ClickWait INPUT_TIMEOUT]) m1 Hr1) as (m' & Hn & Hr' & Hv').
      exists m'. split; [exact Hn|]. split; [exact Hr'|]. rewrite Hv', Hv1, Hv. reflexivity.
Qed.

Lemma dispatch_ready (ev : InputEvent) (m : Menu) :
  ready m ->
  exists m', dispatch ev m = Done m' /\ ready m' /\ view m' = v_step ev (view m).
Proof.
  intros H. pose proof H as (Hsu & _).
  destruct ev as [e|e|p|d]; simpl.
  - unfold inputActivation_next, v_activation. rewrite Hsu. fold (is_primary e).
    assert (Hstep1 : exists m1,
      (if is_primary e
       then and_then (unsubscribe_drag_inner m)
              (fun m0 => Done (set_deactivationObservers (deactivationObservers m0 ++ [DragStop]) m0))
       else Done m) = Done m1 /\ ready m1
      /\ view m1 =
         (if is_primary e then
            let v' := if bool_decide (DragStop ∈ v_observers (view m))
                      then v_finalize (v_set_observers (without_drag_stop (v_observers (view m))) (view m))
                      else view m in
            v_set_observers (v_observers v' ++ [DragStop]) v'
          else view m)).
    { destruct (is_primary e); [|eauto].
      unfold unsubscribe_drag_inner, drag_inner_active.
      change (deactivationObservers m) with (v_observers (view m)).
      destruct (bool_decide (DragStop ∈ v_observers (view m))).
      - destruct (set_observers_ready (without_drag_stop (v_observers (view m))) m H) as (Hr & Hv).
        destruct (finalize_drag_ready _ Hr) as (m1 & Hf & Hr1 & Hv1).
        rewrite Hf. cbn [and_then].
        destruct (set_observers_ready (deactivationObservers m1 ++ [DragStop]) m1 Hr1) as (Hr2 & Hv2).
        eexists. split; [reflexivity|]. split; [exact Hr2|].
        rewrite Hv2. change (deactivationObservers m1) with (v_observers (view m1)).
        rewrite Hv1, Hv. reflexivity.
      - simpl.
        destruct (set_observers_ready (deactivationObservers m ++ [DragStop]) m H) as (Hr2 & Hv2).
        eexists. split; [reflexivity|]. split; [exact Hr2|]. rewrite Hv2. reflexivity. }
    destruct Hstep1 as (m1 & -> & Hr1 & Hv1). cbn [and_then].
    destruct (set_observers_ready (deactivationObservers m1 ++ [ClickWait INPUT_TIMEOUT]) m1 Hr1)
      as (Hr2 & Hv2).
    eexists. split; [reflexivity|]. split; [exact Hr2|].
    rewrite Hv2. change (deactivationObservers m1) with (v_observers (view m1)).
    rewrite Hv1. reflexivity.
  - unfold inputDeactivation_next. rewrite Hsu.
    apply (notify_deactivation_ready e (deactivationObservers m) [] m H).
  - unfold inputPosition_next, v_position_next. rewrite Hsu.
    assert (Hr : ready (set_inputPosition p m)
               /\ view (set_inputPosition p m)
                  = mkView p (v_marking (view m)) (v_observers (view m))
                           (v_drags (view m)) (v_clicks (view m)) (v_live (view m))).
    { clear Hsu. open_ready H m. split; [|reflexivity]. unfold ready; simpl; eauto 10. }
    destruct Hr as (Hr & Hv).
    unfold drag_inner_active.
    change (deactivationObservers (set_inputPosition p m))
      with (v_observers (view (set_inputPosition p m))).
    rewrite Hv. simpl.
    destruct (bool_decide (DragStop ∈ deactivationObservers m)).
    + destruct (dragging_next_ready (mkDrag p DRAGGING) _ Hr) as (m' & Hd & Hr' & Hv').
      exists m'. split; [exact Hd|]. split; [exact Hr'|]. rewrite Hv', Hv. reflexivity.
    + eauto.
  - unfold elapse.
    destruct (set_observers_ready (omap (tick d) (deactivationObservers m)) m H) as (Hr & Hv).
    eauto.
Qed.

(** ** Sequences of input events *)

Lemma run_ready (evs : list InputEvent) (m : Menu) :
  ready m ->
  exists m', run evs m = Done m' /\ ready m' /\ view m' = v_run evs (view m).
Proof.
  revert m. induction evs as [|ev evs IH]; intros m H; simpl.
  - eauto.
  - destruct (dispatch_ready ev m H) as (m1 & -> & Hr1 & Hv1). cbn [and_then].
    destruct (IH m1 Hr1) as (m' & Hrun & Hr' & Hv').
    exists m'. split; [exact Hrun|]. split; [exact Hr'|]. rewrite Hv', Hv1. reflexivity.
Qed.

Lemma run_app (evs1 evs2 : list InputEvent) (m : Menu) :
  run (evs1 ++ evs2) m = and_then (run evs1 m) (run evs2).
Proof.
  revert m. induction evs1 as [|ev evs1 IH]; intros m; simpl; [reflexivity|].
  destruct (dispatch ev m); simpl; [apply IH|reflexivity].
Qed.

Lemma v_run_snoc (evs : list InputEvent) (ev : InputEvent) (v : View) :
  v_run (evs ++ [ev]) v = v_step ev (v_run evs v).
Proof. unfold v_run. rewrite fold_left_app. reflexivity. Qed.

(** ** The view, field by field *)

Lemma v_finalize_fields (v : View) :
  v_finalize v =
  mkView (v_position v) false (v_observers v)
         (v_drags v ++ if v_marking v then [mkDrag (v_position v) END] else [])
         (v_clicks v) (v_live v).
Proof.
  unfold v_finalize. destruct v as [p mk obs dr cl lv]. simpl.
  destruct mk; simpl; [destruct lv; reflexivity|]. rewrite app_nil_r. reflexivity.
Qed.

Lemma v_notify_fields (e : Input) (todo seen : list DeactivationObserver) (v : View) :
  v_observers v = seen ++ todo ->
  v_notify e seen todo v =
  mkView (v_position v)
         (if bool_decide (DragStop ∈ todo) then false else v_marking v)
         (seen ++ rearm todo)
         (v_drags v ++ if bool_decide (DragStop ∈ todo) && v_marking v
                       then [mkDrag (v_position v) END] else [])
         (v_clicks v ++ replicate (length (rearm todo)) (classify_click e))
         (v_live v).
Proof.
  revert seen v. induction todo as [|o rest IH]; intros seen v Hobs.
  - simpl. destruct v as [p mk obs dr cl lv]. simpl in *. subst.
    rewrite !app_nil_r. reflexivity.
  - destruct o as [|r]; simpl.
    + rewrite IH by (rewrite v_finalize_fields; reflexivity).
      rewrite v_finalize_fields. simpl.
      rewrite andb_false_r, app_nil_r.
      destruct (bool_decide (DragStop ∈ rest)); reflexivity.
    + rewrite IH by reflexivity. simpl.
      assert (Hmem : bool_decide (DragStop ∈ ClickWait r :: rest)
                     = bool_decide (DragStop ∈ rest)).
      { apply bool_decide_ext. rewrite elem_of_cons. split; [|tauto].
        intros [?|?]; [discriminate|assumption]. }
      rewrite Hmem, <- !app_assoc. reflexivity.
Qed.

Lemma elem_of_rearm (todo : list DeactivationObserver) : DragStop ∉ rearm todo.
Proof.
  unfold rearm. intros H. apply list_elem_of_omap in H as (o & _ & Ho).
  destruct o; discriminate.
Qed.

Lemma elem_of_tick (d : nat) (l : list DeactivationObserver) :
  DragStop ∈ omap (tick d) l <-> DragStop ∈ l.
Proof.
  rewrite list_elem_of_omap. split.
  - intros (o & Ho & Ht). destruct o as [|r]; [exact Ho|].
    simpl in Ht. destruct (r <=? d); discriminate.
  - intros H. exists DragStop. split; [exact H|reflexivity].
Qed.

(** ** Histories *)

Lemma drag_in_progress_nil : ~ drag_in_progress [].
Proof. intros (pre & e & post & H & _). by destruct pre. Qed.

Lemma sampled_drag_nil : ~ sampled_drag [].
Proof. intros (pre & e & mid & p & post & H & _). by destruct pre. Qed.

Lemma drag_in_progress_snoc (evs : list InputEvent) (ev : InputEvent) :
  drag_in_progress (evs ++ [ev]) <->
  starts_drag ev = true \/ (drag_in_progress evs /\ ends_drag ev = false).
Proof.
  split.
  - intros (pre & e & post & Heq & Hp & Hpost).
    destruct post as [|x post _] using rev_ind.
    + apply app_inj_tail in Heq as [_ ->]. left. exact Hp.
    + rewrite app_comm_cons, app_assoc in Heq. apply app_inj_tail in Heq as [-> ->].
      apply Forall_app in Hpost as [Hpost Hx]. apply Forall_inv in Hx.
      right. split; [|exact Hx]. exists pre, e, post. auto.
  - intros [Hs|[(pre & e & post & -> & Hp & Hpost) He]].
    + destruct ev as [e| | |]; try discriminate.
      exists evs, e, []. auto.
    + exists pre, e, (post ++ [ev]). rewrite <- app_assoc. split; [reflexivity|].
      split; [exact Hp|]. apply Forall_app. split; [exact Hpost|]. by apply Forall_singleton.
Qed.

Lemma sampled_drag_snoc (evs : list InputEvent) (ev : InputEvent) :
  sampled_drag (evs ++ [ev]) <->
  (exists p, ev = Position p /\ drag_in_progress evs)
  \/ (sampled_drag evs /\ ends_drag ev = false /\ starts_drag ev = false).
Proof.
  split.
  - intros (pre & e & mid & p & post & Heq & Hp & Hmid & Hpost).
    destruct post as [|x post _] using rev_ind.
    + rewrite app_comm_cons, app_assoc in Heq. apply app_inj_tail in Heq as [-> ->].
      left. exists p. split; [reflexivity|]. exists pre, e, mid. auto.
    + replace (pre ++ Activation e :: mid ++ Position p :: post ++ [x])
        with ((pre ++ Activation e :: mid ++ Position p :: post) ++ [x]) in Heq
        by (rewrite <- !app_assoc; simpl; rewrite <- !app_assoc; reflexivity).
      apply app_inj_tail in Heq as [-> ->].
      apply Forall_app in Hpost as [Hpost Hx]. apply Forall_inv in Hx.
      right. split; [|exact Hx]. exists pre, e, mid, p, post. auto.
  - intros [(p & -> & pre & e & post & -> & Hp & Hpost)
           |[(pre & e & mid & p & post & -> & Hp & Hmid & Hpost) [He Hs]]].
    + exists pre, e, post, p, []. rewrite <- app_assoc. auto.
    + exists pre, e, mid, p, (post ++ [ev]).
      split; [rewrite <- !app_assoc; simpl; rewrite <- !app_assoc; reflexivity|].
      split; [exact Hp|]. split; [exact Hmid|].
      apply Forall_app. split; [exact Hpost|]. by apply Forall_singleton.
Qed.

Lemma sampled_drag_in_progress (evs : list InputEvent) :
  sampled_drag evs -> drag_in_progress evs.
Proof.
  intros (pre & e & mid & p & post & -> & Hp & Hmid & Hpost).
  exists pre, e, (mid ++ Position p :: post). split; [reflexivity|]. split; [exact Hp|].
  apply Forall_app. split; [exact Hmid|]. constructor; [reflexivity|].
  eapply Forall_impl; [exact Hpost|]. intros ? [? _]. assumption.
Qed.

(** ** One step of the view *)

Lemma without_drag_stop_absent (l : list DeactivationObserver) :
  DragStop ∉ without_drag_stop l.
Proof. unfold without_drag_stop. rewrite list_elem_of_filter. tauto. Qed.

Lemma v_activation_fields (e : Input) (v : View) :
  v_activation e v =
  mkView (v_position v)
         (if is_primary e && bool_decide (DragStop ∈ v_observers v) then false
          else v_marking v)
         ((if is_primary e
           then (if bool_decide (DragStop ∈ v_observers v)
                 then without_drag_stop (v_observers v) else v_observers v) ++ [DragStop]
           else v_observers v) ++ [ClickWait INPUT_TIMEOUT])
         (v_drags v ++ if is_primary e && bool_decide (DragStop ∈ v_observers v)
                          && v_marking v
                       then [mkDrag (v_position v) END] else [])
         (v_clicks v) (v_live v).
Proof.
  unfold v_activation. destruct v as [p mk obs dr cl lv]. simpl.
  destruct (is_primary e); simpl; [|rewrite app_nil_r; reflexivity].
  destruct (bool_decide (DragStop ∈ obs)); simpl; [|rewrite app_nil_r; reflexivity].
  rewrite v_finalize_fields. reflexivity.
Qed.

Lemma v_step_position (ev : InputEvent) (v : View) :
  v_position (v_step ev v) = match ev with Position p => p | _ => v_position v end.
Proof.
  destruct ev as [e|e|p|d]; cbn [v_step starts_drag ends_drag].
  - rewrite v_activation_fields. reflexivity.
  - rewrite v_notify_fields by reflexivity. reflexivity.
  - unfold v_position_next. simpl. destruct (bool_decide _); reflexivity.
  - reflexivity.
Qed.

Lemma v_step_drag_stop (ev : InputEvent) (v : View) :
  DragStop ∈ v_observers (v_step ev v) <->
  starts_drag ev = true \/ (DragStop ∈ v_observers v /\ ends_drag ev = false).
Proof.
  destruct ev as [e|e|p|d]; cbn [v_step starts_drag ends_drag].
  - rewrite v_activation_fields. simpl.
    destruct (is_primary e).
    + rewrite !elem_of_app, list_elem_of_singleton. tauto.
    + rewrite elem_of_app, list_elem_of_singleton.
      split; [intros [?|?]; [tauto|discriminate]|intros [?|[? _]]; [discriminate|tauto]].
  - rewrite v_notify_fields by reflexivity. simpl.
    split; [intros H; destruct (elem_of_rearm _ H)|intros [?|[_ ?]]; discriminate].
  - unfold v_position_next. simpl. destruct (bool_decide _); simpl;
      (split; [tauto|intros [?|[? _]]; [discriminate|assumption]]).
  - simpl. rewrite elem_of_tick. split; [tauto|intros [?|[? _]]; [discriminate|assumption]].
Qed.

Lemma v_step_live (ev : InputEvent) (v : View) : v_live (v_step ev v) = v_live v.
Proof.
  destruct ev as [e|e|p|d]; cbn [v_step].
  - rewrite v_activation_fields. reflexivity.
  - rewrite v_notify_fields by reflexivity. reflexivity.
  - unfold v_position_next. simpl. destruct (bool_decide _); reflexivity.
  - reflexivity.
Qed.

Lemma v_run_live (evs : list InputEvent) (v : View) : v_live (v_run evs v) = v_live v.
Proof.
  revert v. induction evs as [|ev evs IH]; intros v; [reflexivity|].
  change (v_run (ev :: evs) v) with (v_run evs (v_step ev v)).
  rewrite IH. apply v_step_live.
Qed.

Lemma v_step_marking (ev : InputEvent) (v : View) :
  (v_marking v = true -> DragStop ∈ v_observers v) ->
  v_marking (v_step ev v) = true <->
  (exists p, ev = Position p /\ DragStop ∈ v_observers v /\ v_live v = true)
  \/ (v_marking v = true /\ ends_drag ev = false /\ starts_drag ev = false).
Proof.
  intros Hinv. destruct ev as [e|e|p|d]; cbn [v_step starts_drag ends_drag].
  - rewrite v_activation_fields. simpl. fold (is_primary e).
    destruct (is_primary e); simpl.
    + destruct (bool_decide_reflect (DragStop ∈ v_observers v)) as [Hin|Hout].
      * split; [discriminate|]. intros [(p & ? & _)|(_ & _ & ?)]; discriminate.
      * split; [intros Hmk; destruct (Hout (Hinv Hmk))|].
        intros [(p & ? & _)|(_ & _ & ?)]; discriminate.
    + split; [tauto|]. intros [(p & ? & _)|(? & _ & _)]; [discriminate|assumption].
  - rewrite v_notify_fields by reflexivity. simpl.
    destruct (bool_decide_reflect (DragStop ∈ v_observers v)) as [Hin|Hout].
    + split; [discriminate|]. intros [(p & ? & _)|(_ & ? & _)]; discriminate.
    + split; [intros Hmk; destruct (Hout (Hinv Hmk))|].
      intros [(p & ? & _)|(_ & ? & _)]; discriminate.
  - unfold v_position_next. simpl.
    destruct (bool_decide_reflect (DragStop ∈ v_observers v)) as [Hin|Hout]; simpl.
    + destruct (v_live v); simpl.
      * split; [|reflexivity]. intros _. left. eauto.
      * split; [tauto|]. intros [(q & _ & _ & ?)|(? & _ & _)]; [discriminate|assumption].
    + split; [tauto|]. intros [(q & _ & ? & _)|(? & _ & _)]; [contradiction|assumption].
  - split; [tauto|]. intros [(q & ? & _)|(? & _ & _)]; [discriminate|assumption].
Qed.

Lemma v_step_drags (ev : InputEvent) (v : View) :
  (v_marking v = true -> DragStop ∈ v_observers v) ->
  v_drags (v_step ev v) =
  v_drags v ++
  match ev with
  | Position p =>
      if bool_decide (DragStop ∈ v_observers v) then [mkDrag p DRAGGING] else []
  | Deactivation _ => if v_marking v then [mkDrag (v_position v) END] else []
  | Activation e =>
      if is_primary e && v_marking v then [mkDrag (v_position v) END] else []
  | Elapse _ => []
  end.
Proof.
  intros Hinv. destruct ev as [e|e|p|d]; cbn [v_step starts_drag ends_drag].
  - rewrite v_activation_fields. simpl. f_equal.
    destruct (is_primary e); simpl; [|reflexivity].
    destruct (bool_decide_reflect (DragStop ∈ v_observers v)) as [Hin|Hout]; simpl;
      [reflexivity|].
    destruct (v_marking v); [destruct (Hout (Hinv eq_refl))|reflexivity].
  - rewrite v_notify_fields by reflexivity. simpl. f_equal.
    destruct (bool_decide_reflect (DragStop ∈ v_observers v)) as [Hin|Hout]; simpl;
      [reflexivity|].
    destruct (v_marking v); [destruct (Hout (Hinv eq_refl))|reflexivity].
  - unfold v_position_next. simpl. destruct (bool_decide _); simpl;
      [reflexivity|rewrite app_nil_r; reflexivity].
  - rewrite app_nil_r. reflexivity.
Qed.

Lemma v_step_clicks (ev : InputEvent) (v : View) :
  v_clicks (v_step ev v) =
  v_clicks v ++
  match ev with
  | Deactivation e => replicate (length (rearm (v_observers v))) (classify_click e)
  | _ => []
  end.
Proof.
  destruct ev as [e|e|p|d]; cbn [v_step starts_drag ends_drag].
  - rewrite v_activation_fields. simpl. rewrite app_nil_r. reflexivity.
  - rewrite v_notify_fields by reflexivity. reflexivity.
  - unfold v_position_next. simpl. destruct (bool_decide _); simpl;
      rewrite app_nil_r; reflexivity.
  - rewrite app_nil_r. reflexivity.
Qed.

(** ** The state follows the history *)

Lemma v_run_tracks (evs : list InputEvent) (v0 : View) :
  v_observers v0 = [] -> v_marking v0 = false ->
  (DragStop ∈ v_observers (v_run evs v0) <-> drag_in_progress evs)
  /\ (v_marking (v_run evs v0) = true <-> v_live v0 = true /\ sampled_drag evs).
Proof.
  intros Hobs Hmk. induction evs as [|ev evs [IHd IHs]] using rev_ind.
  - simpl. rewrite Hobs, Hmk. split.
    + split; [intros H; inversion H|intros H; destruct (drag_in_progress_nil H)].
    + split; [discriminate|intros [_ H]; destruct (sampled_drag_nil H)].
  - rewrite v_run_snoc.
    assert (Hinv : v_marking (v_run evs v0) = true -> DragStop ∈ v_observers (v_run evs v0)).
    { intros H. apply IHd, sampled_drag_in_progress, IHs, H. }
    split.
    + pose proof (v_step_drag_stop ev (v_run evs v0)) as Hstep.
      pose proof (drag_in_progress_snoc evs ev) as Hsnoc. tauto.
    + pose proof (v_step_marking ev _ Hinv) as Hstep.
      pose proof (sampled_drag_snoc evs ev) as Hsnoc.
      rewrite v_run_live in Hstep. rewrite Hstep, Hsnoc.
      split.
      * intros [(p & Hp & Hd & Hl)|(Hs & He)]; (split; [tauto|]);
          [left; exists p|right]; tauto.
      * intros [Hl [(p & Hp & Hd)|(Hs & He)]]; [left; exists p|right]; tauto.
Qed.

Lemma run_tracks (evs : list InputEvent) (m0 : Menu) :
  fresh m0 ->
  exists m, run evs m0 = Done m /\ ready m
    /\ (DragStop ∈ deactivationObservers m <-> drag_in_progress evs)
    /\ (_markingMode m = true <-> draggingSubscribed m0 = true /\ sampled_drag evs).
Proof.
  intros (Hr & Hobs & Hmk).
  destruct (run_ready evs m0 Hr) as (m & Hrun & Hr' & Hv).
  exists m. split; [exact Hrun|]. split; [exact Hr'|].
  change (deactivationObservers m) with (v_observers (view m)).
  change (_markingMode m) with (v_marking (view m)).
  change (draggingSubscribed m0) with (v_live (view m0)).
  rewrite Hv. apply v_run_tracks; assumption.
Qed.

(** In marking mode a sampled drag is in progress, subscriber or not. *)
Lemma run_marking_in_progress (evs : list InputEvent) (m0 m : Menu) :
  fresh m0 -> run evs m0 = Done m ->
  ready m
  /\ (DragStop ∈ deactivationObservers m <-> drag_in_progress evs)
  /\ (_markingMode m = true -> DragStop ∈ deactivationObservers m).
Proof.
  intros H Hrun. destruct (run_tracks evs m0 H) as (m1 & Hrun1 & Hr & Hd & Hs).
  rewrite Hrun in Hrun1. injection Hrun1 as <-.
  split; [exact Hr|]. split; [exact Hd|].
  intros Hmk. apply Hd, sampled_drag_in_progress, Hs, Hmk.
Qed.

Lemma init_setStructure_fresh (w : Browser) (sel : string) (st : Settings)
    (structure : MenuItem) (m : Menu) :
  init w (Menu_new sel st) = Done m -> fresh (setStructure structure m).
Proof.
  unfold init. simpl. destruct (querySelector w sel) as [root|]; [|discriminate].
  simpl. intros [= <-]. unfold fresh, ready. simpl. eauto 10.
Qed.

Lemma builder_menu_fresh : fresh builder_menu.
Proof. exact (init_setStructure_fresh page "#canvas" builder_settings parsed_root _ eq_refl). Qed.

(** On a menu that is constructed, initialized and given a structure, in
    this order and with nothing in between, the two subscribers of the menu
    are subscribed. *)
Lemma init_setStructure_subscribed (w : Browser) (sel : string) (st : Settings)
    (structure : MenuItem) (m : Menu) :
  init w (Menu_new sel st) = Done m ->
  draggingSubscribed (setStructure structure m) = true
  /\ clickSubscribed (setStructure structure m) = true.
Proof.
  unfold init. simpl. destruct (querySelector w sel) as [root|]; [|discriminate].
  simpl. intros [= <-]. split; reflexivity.
Qed.

(** ** Marking mode *)

(** C4, amended.  On a fresh menu, after every sequence of input events, the
    marking mode is true exactly when the subscriber that the menu gave to
    [_dragging$] is still subscribed and the drag in progress has been
    sampled: an activation of the primary button has been followed by a
    position sample with no deactivation in between, and by no deactivation
    and no other activation of the primary button since; it is false
    whenever no drag is in progress, and it stays false when the subscriber
    is gone, which under rxjs 6 is the case once [dragging$] has emitted
    between [init()] and [setStructure()].  The distance travelled and
    [minDistance] play no part. *)
Theorem markingMode_follows_samples (m0 : Menu) (evs : list InputEvent) :
  fresh m0 ->
  exists m, run evs m0 = Done m
    /\ (get_markingMode m = true <-> draggingSubscribed m0 = true /\ sampled_drag evs)
    /\ (~ drag_in_progress evs -> get_markingMode m = false).
Proof.
  intros H. destruct (run_tracks evs m0 H) as (m & Hrun & _ & Hd & Hs).
  exists m. split; [exact Hrun|]. split; [exact Hs|].
  intros Hno. unfold get_markingMode. destruct (_markingMode m); [|reflexivity].
  destruct Hno. apply sampled_drag_in_progress, Hs. reflexivity.
Qed.

Lemma markingMode_follows_samples_witness :
  fresh builder_menu
  /\ draggingSubscribed builder_menu = true
  /\ exists m, run [Activation primary_down; Position sample_point] builder_menu = Done m
       /\ (get_markingMode m = true
           <-> draggingSubscribed builder_menu = true
               /\ sampled_drag [Activation primary_down; Position sample_point])
       /\ (~ drag_in_progress [Activation primary_down; Position sample_point]
           -> get_markingMode m = false).
Proof.
  assert (H : fresh builder_menu).
  { unfold fresh, ready. repeat split; try reflexivity; eexists; reflexivity. }
  split; [exact H|]. split; [reflexivity|].
  exact (markingMode_follows_samples builder_menu
           [Activation primary_down; Position sample_point] H).
Defined.

(** Input between [init()] and [setStructure()]: [display()] throws in the
    two subscribers of the menu, which are unsubscribed, and the two
    exceptions are reported to the host.  The menu is fresh once it has its
    structure, but a drag no longer turns marking mode on or updates the
    trace, while [dragging$] goes on emitting. *)
Example early_input_unsubscribes :
  fresh early_menu
  /\ draggingSubscribed early_menu = false
  /\ clickSubscribed early_menu = false
  /\ reportedErrors early_menu
     = [Error "Menu not initialized."; Error "Menu not initialized."]
  /\ get_markingMode
       (menu_of (run [Activation primary_down; Position sample_point] early_menu))
     = false
  /\ dragging_log
       (menu_of (run [Activation primary_down; Position sample_point] early_menu))
     = [mkDrag sample_point DRAGGING; mkDrag sample_point DRAGGING]
  /\ _trace (menu_of (run [Activation primary_down; Position sample_point] early_menu))
     = [].
Proof.
  split.
  { unfold fresh, ready. repeat split; try reflexivity; eexists; reflexivity. }
  repeat split; vm_compute; reflexivity.
Qed.

(** The same from the constructor: on a menu that is constructed,
    initialized and given a structure before any input arrives, the marking
    mode is true exactly when the drag in progress has been sampled. *)
Lemma markingMode_after_setup (w : Browser) (sel : string) (st : Settings)
    (structure : MenuItem) (m1 : Menu) (evs : list InputEvent) :
  init w (Menu_new sel st) = Done m1 ->
  exists m, run evs (setStructure structure m1) = Done m
    /\ (get_markingMode m = true <-> sampled_drag evs).
Proof.
  intros Hinit.
  destruct (run_tracks evs _ (init_setStructure_fresh w sel st structure m1 Hinit))
    as (m & Hrun & _ & _ & Hs).
  destruct (init_setStructure_subscribed w sel st structure m1 Hinit) as [Hsub _].
  exists m. split; [exact Hrun|]. unfold get_markingMode. rewrite Hs. tauto.
Qed.

(** C4, as the specification has it, fails: the pointer is pressed where it
    is and reports the same position again; the drag has travelled nothing,
    which does not exceed the [minDistance] of 150, and the marking mode is
    true. *)
Lemma markingMode_without_travel :
  get_markingMode
    (menu_of (run [Position sample_point; Activation primary_down; Position sample_point]
                  builder_menu)) = true
  /\ PrimFloat.ltb (minDistance (main (_settings builder_menu)))
                   (travelled sample_point sample_point) = false.
Proof. split; vm_compute; reflexivity. Qed.

(** ** The drag stream *)

(** C5.  On a fresh menu, after the input events [evs], the next event [ev]
    makes [dragging$] emit [new]: a position sample [p] emits
    [{p, DRAGGING}] when a drag is in progress, that is when an activation
    of the primary button has not been followed by a deactivation, and
    nothing otherwise; a deactivation emits one [{position, END}], at the
    last input position, when the menu was in marking mode, and nothing
    otherwise, and no drag is in progress after it; an activation emits no
    [DRAGGING], emits nothing when it does not carry the primary button, and
    starts a drag only when it does; the passing of time emits nothing. *)
Theorem drag_stream_protocol (m0 : Menu) (evs : list InputEvent) (ev : InputEvent)
    (m : Menu) :
  fresh m0 -> run evs m0 = Done m ->
  exists m' new,
    dispatch ev m = Done m'
    /\ dragging_log m' = dragging_log m ++ new
    /\ match ev with
       | Position p =>
           (drag_in_progress evs -> new = [mkDrag p DRAGGING])
           /\ (~ drag_in_progress evs -> new = [])
       | Deactivation _ =>
           (get_markingMode m = true -> new = [mkDrag (get_inputPosition m) END])
           /\ (get_markingMode m = false -> new = [])
           /\ ~ drag_in_progress (evs ++ [ev])
       | Activation e =>
           Forall (fun d => state d = END) new
           /\ (is_primary e = false -> new = [])
           /\ (drag_in_progress (evs ++ [ev])
               <-> is_primary e = true \/ drag_in_progress evs)
       | Elapse _ => new = []
       end.
Proof.
  intros H Hrun.
  destruct (run_tracks evs m0 H) as (m1 & Hrun1 & Hr & Hd & Hs).
  rewrite Hrun in Hrun1. injection Hrun1 as <-.
  destruct (dispatch_ready ev m Hr) as (m' & Hdis & _ & Hv).
  assert (Hinv : v_marking (view m) = true -> DragStop ∈ v_observers (view m)).
  { intros Hmk. apply Hd, sampled_drag_in_progress, Hs, Hmk. }
  pose proof (v_step_drags ev (view m) Hinv) as Hdr. rewrite <- Hv in Hdr.
  change (v_drags (view m')) with (dragging_log m') in Hdr.
  change (v_drags (view m)) with (dragging_log m) in Hdr.
  exists m'. eexists. split; [exact Hdis|]. split; [exact Hdr|].
  change (v_observers (view m)) with (deactivationObservers m).
  change (v_marking (view m)) with (get_markingMode m).
  change (v_position (view m)) with (get_inputPosition m).
  destruct ev as [e|e|p|d].
  - split; [|split].
    + destruct (is_primary e && get_markingMode m); repeat constructor.
    + intros ->. reflexivity.
    + rewrite drag_in_progress_snoc. simpl.
      split; [intros [?|[? _]]; auto|intros [?|?]; auto].
  - split; [|split].
    + intros ->. reflexivity.
    + intros ->. reflexivity.
    + rewrite drag_in_progress_snoc. simpl. intros [?|[_ ?]]; discriminate.
  - split.
    + intros Hin. apply Hd in Hin. rewrite bool_decide_eq_true_2 by exact Hin. reflexivity.
    + intros Hout. rewrite bool_decide_eq_false_2; [reflexivity|].
      intros Hin. apply Hout, Hd, Hin.
  - reflexivity.
Qed.

Lemma drag_stream_protocol_witness :
  fresh builder_menu
  /\ run [Activation primary_down] builder_menu = Done pressed_menu
  /\ exists m' new,
       dispatch (Position sample_point) pressed_menu = Done m'
       /\ dragging_log m' = dragging_log pressed_menu ++ new
       /\ (drag_in_progress [Activation primary_down]
           -> new = [mkDrag sample_point DRAGGING])
       /\ (~ drag_in_progress [Activation primary_down] -> new = []).
Proof.
  assert (H : fresh builder_menu).
  { unfold fresh, ready. repeat split; try reflexivity; eexists; reflexivity. }
  split; [exact H|]. split; [reflexivity|].
  exact (drag_stream_protocol builder_menu [Activation primary_down]
           (Position sample_point) pressed_menu H eq_refl).
Defined.

(** The drag of the witness is in progress, and its sample is emitted. *)
Example pressed_menu_drags :
  drag_in_progress [Activation primary_down]
  /\ dragging_log (menu_of (dispatch (Position sample_point) pressed_menu))
     = [mkDrag sample_point DRAGGING].
Proof.
  split.
  - exists [], primary_down, []. repeat split. constructor.
  - vm_compute. reflexivity.
Qed.

(** ** The input position *)

Lemma setStructure_ready (structure : MenuItem) (m : Menu) :
  observablesSetUp m = true -> is_Some (_traceVisGroup m) -> is_Some (_click m) ->
  is_Some (_dragging m) ->
  ready (setStructure structure m) /\ view (setStructure structure m) = view m.
Proof.
  intros Hsu Hg Hc Hd. destruct m. simpl in *. split; [|reflexivity].
  unfold ready. simpl. eauto 10.
Qed.

Lemma perform_ready (c : Call) (m : Menu) :
  ready m ->
  exists m', perform c m = Done m' /\ ready m'
    /\ get_inputPosition m' =
       match c with CallInput (Position p) => p | _ => get_inputPosition m end.
Proof.
  intros H. destruct c as [structure| |ev]; simpl.
  - destruct H as (Hsu & _ & Hg & Hc & Hd).
    destruct (setStructure_ready structure m Hsu Hg Hc Hd) as (Hr & Hv).
    eexists. split; [reflexivity|]. split; [exact Hr|].
    change (v_position (view (setStructure structure m)) = v_position (view m)).
    rewrite Hv. reflexivity.
  - destruct (display_ready m H) as (m' & Hd & Hr & Hv).
    exists m'. split; [exact Hd|]. split; [exact Hr|].
    change (v_position (view m') = v_position (view m)). rewrite Hv. reflexivity.
  - destruct (dispatch_ready ev m H) as (m' & Hd & Hr & Hv).
    exists m'. split; [exact Hd|]. split; [exact Hr|].
    change (get_inputPosition m') with (v_position (view m')).
    rewrite Hv, v_step_position. destruct ev; reflexivity.
Qed.

Lemma session_ready (calls : list Call) (m : Menu) :
  ready m ->
  exists m', session calls m = Done m' /\ ready m'
    /\ get_inputPosition m' = last_sample calls (get_inputPosition m).
Proof.
  revert m. induction calls as [|c calls IH]; intros m H; simpl.
  - eauto.
  - destruct (perform_ready c m H) as (m1 & -> & Hr1 & Hp1). cbn [and_then].
    destruct (IH m1 Hr1) as (m' & Hs & Hr' & Hp').
    exists m'. split; [exact Hs|]. split; [exact Hr'|]. rewrite Hp', Hp1.
    destruct c as [?| |[?|?|?|?]]; reflexivity.
Qed.

Lemma init_inputPosition (w : Browser) (m : Menu) :
  get_inputPosition (menu_of (init w m)) = get_inputPosition m.
Proof.
  unfold init. open_menu m. simpl.
  destruct (querySelector w sel); reflexivity.
Qed.

(** C10.  The input position of a new menu is [ZERO_POINT].  On every menu,
    an input event leaves it as it is unless it is a position sample that
    arrives after [init()] has subscribed to the samples, and then it is
    that sample; [init()], [setStructure()] and [display()] leave it as it
    is, whether they return or throw.  Hence on a ready menu, after every
    sequence of calls of [setStructure] and [display] and of input events,
    it is the last position sample of the sequence, or what it was when the
    sequence holds none. *)
Theorem inputPosition_is_last_sample (sel : string) (st : Settings) (w : Browser)
    (structure : MenuItem) (m : Menu) (ev : InputEvent) (calls : list Call) :
  get_inputPosition (Menu_new sel st) = ZERO_POINT
  /\ get_inputPosition (menu_of (dispatch ev m))
     = match ev with
       | Position p => if observablesSetUp m then p else get_inputPosition m
       | _ => get_inputPosition m
       end
  /\ get_inputPosition (menu_of (init w m)) = get_inputPosition m
  /\ get_inputPosition (setStructure structure m) = get_inputPosition m
  /\ get_inputPosition (menu_of (display m)) = get_inputPosition m
  /\ (ready m ->
      exists m', session calls m = Done m'
        /\ get_inputPosition m' = last_sample calls (get_inputPosition m)).
Proof.
  split; [reflexivity|]. split; [apply dispatch_inputPosition|].
  split; [apply init_inputPosition|]. split; [apply setStructure_inputPosition|].
  split; [apply display_inputPosition|].
  intros H. destruct (session_ready calls m H) as (m' & Hs & _ & Hp). eauto.
Qed.

Lemma inputPosition_is_last_sample_witness :
  ready builder_menu
  /\ get_inputPosition builder_menu = ZERO_POINT
  /\ exists m',
       session [CallInput (Activation primary_down); CallInput (Position sample_point);
                CallDisplay; CallInput (Deactivation primary_up)] builder_menu = Done m'
       /\ get_inputPosition m' = sample_point.
Proof.
  assert (H : ready builder_menu).
  { unfold ready. repeat split; try reflexivity; eexists; reflexivity. }
  split; [exact H|]. split; [reflexivity|].
  destruct (inputPosition_is_last_sample "#canvas" builder_settings page parsed_root
              builder_menu (Position sample_point)
              [CallInput (Activation primary_down); CallInput (Position sample_point);
               CallDisplay; CallInput (Deactivation primary_up)])
    as (_ & _ & _ & _ & _ & Hlast).
  exact (Hlast H).
Defined.

(** ** [display] *)

(** C6.  When the root item is [HIDDEN] or [NONE] and the group of the trace
    visualization exists, [display()] records a reset of the trace, empties
    the group, stops and then starts the fade animation, makes the root item
    visible and [ACTIVE], redraws it and places it at the last input
    position, and changes nothing else; when the root item is [ACTIVE],
    [display()] changes nothing. *)
Theorem display_effect (m : Menu) (item : MenuItem) :
  _rootItem m = Some item ->
  (forall group : Group,
     _traceVisGroup m = Some group ->
     item_state item = HIDDEN \/ item_state item = NONE ->
     display m =
     Done {| _rootSelector := _rootSelector m;
             _settings := _settings m;
             _inputPosition := _inputPosition m;
             _click := _click m;
             _dragging := _dragging m;
             _root := _root m;
             _canvas := _canvas m;
             _scope := _scope m;
             _rootItem :=
               Some {| item_state := ACTIVE;
                       item_visible := true;
                       item_position := get_inputPosition m;
                       item_settings := item_settings item;
                       item_selection := item_selection item;
                       item_calls := item_calls item ++ [ItemRedraw] |};
             _fadeAnimation := _fadeAnimation m ++ [AnimationStop; AnimationStart];
             _trace := _trace m ++ [TraceReset];
             _traceVisGroup := Some [];
             _markingMode := _markingMode m;
             observablesSetUp := observablesSetUp m;
             deactivationObservers := deactivationObservers m;
             draggingSubscribed := draggingSubscribed m;
             clickSubscribed := clickSubscribed m;
             reportedErrors := reportedErrors m |})
  /\ (item_state item = ACTIVE -> display m = Done m).
Proof.
  intros Hitem. split.
  - intros group Hgroup Hstate. unfold display. rewrite Hitem.
    assert (bool_decide (item_state item = HIDDEN) || bool_decide (item_state item = NONE)
            = true) as ->.
    { destruct Hstate as [-> | ->]; reflexivity. }
    open_menu m.
    simpl in Hitem, Hgroup. subst. destruct item. simpl.
    rewrite <- app_assoc. reflexivity.
  - intros Hstate. unfold display. rewrite Hitem, Hstate. reflexivity.
Qed.

Lemma display_effect_witness :
  _rootItem builder_menu = Some structured_root
  /\ _traceVisGroup builder_menu = Some []
  /\ item_state structured_root = NONE
  /\ display builder_menu =
     Done (on_rootItem
             (fun _ => {| item_state := ACTIVE;
                          item_visible := true;
                          item_position := ZERO_POINT;
                          item_settings := Some builder_settings;
                          item_selection := [];
                          item_calls := [ItemInit; ItemRedraw] |})
             (set_fadeAnimation
                [AnimationInitialize 250%float; AnimationStop; AnimationStart]
                (set_trace [TraceReset] builder_menu))).
Proof.
  split; [reflexivity|]. split; [reflexivity|]. split; [reflexivity|].
  destruct (display_effect builder_menu structured_root eq_refl) as [Hshow _].
  exact (Hshow [] eq_refl (or_intror eq_refl)).
Defined.

(** Without the group, that is before [init()], [display()] on a hidden
    root item throws after it has reset the trace. *)
Example display_without_init :
  display (setStructure parsed_root (Menu_new "#canvas" builder_settings))
  = Thrown (TypeError "Cannot read properties of undefined (reading 'removeChildren')")
           (set_trace [TraceReset]
              (setStructure parsed_root (Menu_new "#canvas" builder_settings))).
Proof. reflexivity. Qed.

(** ** Before [setStructure] *)

(** C9.  On a menu on which [setStructure] has not been called, whatever
    else has happened to it since its construction ([init()], [display()],
    input events), [display()] throws the error [Menu not initialized.] and
    leaves the menu as it is. *)
Theorem display_before_setStructure (m : Menu) :
  before_setStructure m -> display m = Thrown (Error "Menu not initialized.") m.
Proof. intros H. apply display_no_root, before_setStructure_no_root, H. Qed.

Lemma display_before_setStructure_witness :
  exists m, init page (Menu_new "#canvas" builder_settings) = Done m
    /\ before_setStructure m
    /\ display m = Thrown (Error "Menu not initialized.") m.
Proof.
  exists (menu_of (init page (Menu_new "#canvas" builder_settings))).
  split; [reflexivity|].
  assert (H : before_setStructure
                (menu_of (init page (Menu_new "#canvas" builder_settings)))).
  { apply bs_init, bs_new. }
  split; [exact H|].
  exact (display_before_setStructure _ H).
Defined.

(** ** The accessors *)

(** C3, at the input where the code departs from it: on a menu that was
    constructed and nothing more, [click$] and [dragging$] return the
    streams, which have emitted nothing, and only [selection$] throws. *)
Theorem accessors_of_a_new_menu (sel : string) (st : Settings) :
  get_click (Menu_new sel st) = Ok []
  /\ get_dragging (Menu_new sel st) = Ok []
  /\ get_selection (Menu_new sel st) = Throw (Error "Menu not initialized").
Proof. repeat split. Qed.

Ltac frame_subjects :=
  let m := fresh "m" in
  intros ? m ?; unfold on_rootItem, subjects_defined in *; open_menu m; simpl in *;
  first [assumption | split; eauto; tauto].

Lemma dispatch_subjects (ev : InputEvent) (m : Menu) :
  subjects_defined m -> subjects_defined (menu_of (dispatch ev m)).
Proof.
  intros H.
  destruct ev as [e|e|p|d];
    [apply dispatch_frame|apply dispatch_frame
    |change (subjects_defined (menu_of (inputPosition_next p m)));
     apply inputPosition_next_frame
    |apply dispatch_frame];
    first [exact H | discriminate | frame_subjects
          | destruct (observablesSetUp m); [open_menu m|]; exact H].
Qed.

Lemma reachable_subjects (m : Menu) : reachable m -> subjects_defined m.
Proof.
  induction 1 as [sel st|w m _ IH|structure m _ IH|m _ IH|ev m _ IH].
  - split; eexists; reflexivity.
  - unfold init. open_menu m. simpl in *. destruct (querySelector w sel); exact IH.
  - open_menu m. exact IH.
  - apply display_frame; first [exact IH | frame_subjects].
  - apply dispatch_subjects, IH.
Qed.

(** On every menu a client can reach, [click$] and [dragging$] return their
    streams: the guards of the two accessors never fire. *)
Theorem subjects_never_undefined (m : Menu) :
  reachable m ->
  get_click m = Ok (click_log m) /\ get_dragging m = Ok (dragging_log m).
Proof.
  intros H. destruct (reachable_subjects m H) as [[c Hc] [d Hd]].
  unfold get_click, get_dragging, click_log, dragging_log. rewrite Hc, Hd. split; reflexivity.
Qed.

Lemma subjects_never_undefined_witness :
  reachable builder_menu
  /\ get_click builder_menu = Ok [] /\ get_dragging builder_menu = Ok [].
Proof.
  assert (H : reachable builder_menu).
  { apply r_setStructure, r_init, r_new. }
  split; [exact H|]. exact (subjects_never_undefined builder_menu H).
Defined.

(** [selection$] throws until [setStructure] is called, whatever else has
    happened, [init()] included, and returns the stream of the structure
    from then on. *)
Theorem selection_accessor (structure : MenuItem) (m : Menu) :
  (before_setStructure m -> get_selection m = Throw (Error "Menu not initialized"))
  /\ get_selection (setStructure structure m) = Ok (item_selection structure).
Proof.
  split.
  - intros H. apply before_setStructure_no_root in H. unfold get_selection.
    rewrite H. reflexivity.
  - open_menu m. destruct structure. reflexivity.
Qed.

Lemma selection_accessor_witness :
  before_setStructure (menu_of (init page (Menu_new "#canvas" builder_settings)))
  /\ get_selection (menu_of (init page (Menu_new "#canvas" builder_settings)))
     = Throw (Error "Menu not initialized")
  /\ get_selection builder_menu = Ok [].
Proof.
  assert (H : before_setStructure
                (menu_of (init page (Menu_new "#canvas" builder_settings)))).
  { apply bs_init, bs_new. }
  destruct (selection_accessor parsed_root
              (menu_of (init page (Menu_new "#canvas" builder_settings))))
    as [Hbefore Hafter].
  split; [exact H|]. split; [exact (Hbefore H)|exact Hafter].
Defined.

(** ** The click stream *)

Lemma length_rearm (l : list DeactivationObserver) : length (rearm l) = length (waits l).
Proof.
  induction l as [|[|r] l IH]; simpl; [reflexivity|exact IH|].
  unfold rearm, waits in *. simpl. rewrite IH. reflexivity.
Qed.

Lemma waits_app (l1 l2 : list DeactivationObserver) : waits (l1 ++ l2) = waits l1 ++ waits l2.
Proof. unfold waits. apply omap_app. Qed.

Lemma waits_cons_wait (r : nat) (l : list DeactivationObserver) :
  waits (ClickWait r :: l) = r :: waits l.
Proof. reflexivity. Qed.

Lemma waits_without_drag_stop (l : list DeactivationObserver) :
  waits (without_drag_stop l) = waits l.
Proof.
  induction l as [|o l IH]; [reflexivity|]. unfold without_drag_stop in *. destruct o as [|r].
  - rewrite filter_cons_False by (intros H; apply H; reflexivity). exact IH.
  - rewrite filter_cons_True by discriminate. rewrite !waits_cons_wait, IH. reflexivity.
Qed.

Lemma waits_tick (d : nat) (l : list DeactivationObserver) :
  waits (omap (tick d) l) = omap (fun r => if r <=? d then None else Some (r - d)) (waits l).
Proof.
  induction l as [|o l IH]; [reflexivity|]. destruct o as [|r].
  - exact IH.
  - rewrite waits_cons_wait.
    change (omap (tick d) (ClickWait r :: l))
      with (match tick d (ClickWait r) with
            | Some y => y :: omap (tick d) l
            | None => omap (tick d) l
            end).
    change (omap (fun r0 => if r0 <=? d then None else Some (r0 - d)) (r :: waits l))
      with (match (if r <=? d then None else Some (r - d)) with
            | Some y => y :: omap (fun r0 => if r0 <=? d then None else Some (r0 - d)) (waits l)
            | None => omap (fun r0 => if r0 <=? d then None else Some (r0 - d)) (waits l)
            end).
    cbn [tick]. destruct (r <=? d); [exact IH|].
    rewrite waits_cons_wait, IH. reflexivity.
Qed.

Lemma v_activation_waits (e : Input) (v : View) :
  waits (v_observers (v_activation e v)) = waits (v_observers v) ++ [INPUT_TIMEOUT].
Proof.
  rewrite v_activation_fields. simpl. rewrite waits_app. f_equal.
  destruct (is_primary e); [|reflexivity].
  rewrite waits_app. simpl. rewrite app_nil_r.
  destruct (bool_decide _); [apply waits_without_drag_stop|reflexivity].
Qed.

Lemma v_step_passive (ev : InputEvent) (v : View) :
  passive ev = true ->
  v_clicks (v_step ev v) = v_clicks v
  /\ waits (v_observers (v_step ev v))
     = match ev with
       | Elapse d => omap (fun r => if r <=? d then None else Some (r - d))
                          (waits (v_observers v))
       | _ => waits (v_observers v)
       end.
Proof.
  intros Hp. rewrite v_step_clicks.
  destruct ev as [e|e|p|d]; try discriminate; rewrite app_nil_r; (split; [reflexivity|]).
  - cbn [v_step]. unfold v_position_next. simpl. destruct (bool_decide _); reflexivity.
  - cbn [v_step]. simpl. apply waits_tick.
Qed.

Lemma v_run_passive (mid : list InputEvent) (v : View) :
  Forall (fun ev => passive ev = true) mid ->
  v_clicks (v_run mid v) = v_clicks v
  /\ (waits (v_observers v) = [] -> waits (v_observers (v_run mid v)) = [])
  /\ (forall r, 0 < r -> waits (v_observers v) = [r] ->
      waits (v_observers (v_run mid v))
      = if elapsed mid <? r then [r - elapsed mid] else []).
Proof.
  intros Hmid. revert v. induction Hmid as [|ev mid Hev _ IH]; intros v.
  - simpl. split; [reflexivity|]. split; [tauto|]. intros r Hr ->.
    destruct (Nat.ltb_spec 0 r); [rewrite Nat.sub_0_r; reflexivity|lia].
  - change (v_run (ev :: mid) v) with (v_run mid (v_step ev v)).
    destruct (IH (v_step ev v)) as (Hc & Hnone & Hone).
    destruct (v_step_passive ev v Hev) as (Hc1 & Hw1).
    split; [congruence|]. split.
    + intros Hw. apply Hnone. rewrite Hw1, Hw. destruct ev; reflexivity.
    + intros r Hr Hw. rewrite Hw in Hw1.
      destruct ev as [e|e|p|d]; try discriminate; simpl in Hw1; cbn [elapsed].
      * apply Hone; assumption.
      * destruct (Nat.leb_spec r d).
        -- rewrite (Hnone Hw1). destruct (Nat.ltb_spec (d + elapsed mid) r); [lia|reflexivity].
        -- rewrite (Hone (r - d)) by (lia || assumption).
           destruct (Nat.ltb_spec (elapsed mid) (r - d));
             destruct (Nat.ltb_spec (d + elapsed mid) r); try lia; try reflexivity.
           f_equal. lia.
Qed.

(** On a ready menu with no click pending, one activation followed by
    position samples and the passing of time and then by one deactivation
    makes [click$] emit one click, left when the button of the deactivation
    is 0 and right otherwise, when less than [INPUT_TIMEOUT] time units have
    passed, and nothing when more have. *)
Theorem click_race (m : Menu) (a e : Input) (mid : list InputEvent) :
  ready m -> waits (deactivationObservers m) = [] ->
  Forall (fun ev => passive ev = true) mid ->
  exists m', run (Activation a :: mid ++ [Deactivation e]) m = Done m'
    /\ click_log m' = click_log m
                      ++ if elapsed mid <? INPUT_TIMEOUT then [classify_click e] else [].
Proof.
  intros Hr Hw Hmid.
  destruct (run_ready (Activation a :: mid ++ [Deactivation e]) m Hr) as (m' & Hrun & _ & Hv).
  exists m'. split; [exact Hrun|].
  change (click_log m') with (v_clicks (view m')).
  change (click_log m) with (v_clicks (view m)).
  rewrite Hv. change (v_run (Activation a :: mid ++ [Deactivation e]) (view m))
    with (v_run (mid ++ [Deactivation e]) (v_activation a (view m))).
  rewrite v_run_snoc, v_step_clicks.
  destruct (v_run_passive mid (v_activation a (view m)) Hmid) as (Hc & _ & Hone).
  rewrite Hc, length_rearm, (Hone INPUT_TIMEOUT).
  - rewrite v_activation_fields. simpl. f_equal.
    destruct (elapsed mid <? INPUT_TIMEOUT); reflexivity.
  - unfold INPUT_TIMEOUT. lia.
  - rewrite v_activation_waits. change (v_observers (view m)) with (deactivationObservers m).
    rewrite Hw. reflexivity.
Qed.


Lemma click_race_witness :
  ready builder_menu
  /\ waits (deactivationObservers builder_menu) = []
  /\ Forall (fun ev => passive ev = true) [Position sample_point; Elapse 50]
  /\ exists m',
       run (Activation primary_down
              :: [Position sample_point; Elapse 50] ++ [Deactivation primary_up])
           builder_menu = Done m'
       /\ click_log m' = click_log builder_menu ++ [LEFT_CLICK].
Proof.
  assert (Hr : ready builder_menu).
  { unfold ready. repeat split; try reflexivity; eexists; reflexivity. }
  assert (Hp : Forall (fun ev => passive ev = true) [Position sample_point; Elapse 50]).
  { repeat constructor. }
  split; [exact Hr|]. split; [reflexivity|]. split; [exact Hp|].
  exact (click_race builder_menu primary_down primary_up
           [Position sample_point; Elapse 50] Hr eq_refl Hp).
Defined.

(** The example of the specification: a release 50 time units after the
    press is a left click, a release after 250 is none. *)
Example click_within_and_after_the_window :
  click_log (menu_of (run [Activation primary_down; Elapse 50; Deactivation primary_up]
                          builder_menu)) = [LEFT_CLICK]
  /\ click_log (menu_of (run [Activation primary_down; Elapse 250;
                              Deactivation primary_up] builder_menu)) = [].
Proof. split; vm_compute; reflexivity. Qed.

(** After the release the timer of the press is scheduled again, for the
    whole of [INPUT_TIMEOUT]. *)
Example timer_after_the_release :
  deactivationObservers
    (menu_of (run [Activation primary_down; Elapse 150; Deactivation primary_up]
                  builder_menu))
  = [ClickWait INPUT_TIMEOUT].
Proof. vm_compute. reflexivity. Qed.

(** C2, at an input where the code departs from it: one press, a release
    after 150 time units and a second deactivation (the pointer leaves the
    canvas) 150 time units later.  [timeoutWith] has scheduled its timer
    again at the release, so the second deactivation, 300 time units after
    the press, is a second click of the one activation. *)
Theorem two_clicks_for_one_activation :
  click_log
    (menu_of (run [Activation primary_down; Elapse 150; Deactivation primary_up;
                   Elapse 150; Deactivation primary_up] builder_menu))
  = [LEFT_CLICK; LEFT_CLICK].
Proof. vm_compute. reflexivity. Qed.

End MenuFacts.

(** * [MenuEvent.equals] as a relation *)

Module MenuEventSymmetry.

Import Lodash MenuEventModel MenuEventSpec MenuEventFacts.

(** [===] on numbers is symmetric. *)
Lemma SFeqb_sym (f1 f2 : spec_float) : SFeqb f1 f2 = SFeqb f2 f1.
Proof.
  unfold SFeqb, SFcompare.
  destruct f1 as [s1|s1| |s1 m1 e1], f2 as [s2|s2| |s2 m2 e2]; try reflexivity;
    try (destruct s1, s2; reflexivity).
  rewrite (Z.compare_antisym e1 e2).
  rewrite !Pos.compare_cont_spec. simpl.
  rewrite (Pos.compare_antisym m1 m2).
  destruct s1, s2; try reflexivity;
    destruct (e1 ?= e2)%Z; simpl; try reflexivity;
    destruct (m1 ?= m2)%positive; reflexivity.
Qed.

Lemma strict_eq_number_sym (a b : number) : strict_eq_number a b = strict_eq_number b a.
Proof. unfold strict_eq_number. rewrite !FloatAxioms.eqb_spec. apply SFeqb_sym. Qed.

Lemma same_value_sym (a b : prim) : same_value a b -> same_value b a.
Proof.
  destruct a, b; simpl; try tauto; try congruence.
  rewrite (strict_eq_number_sym n0 n). tauto.
Qed.

Lemma isEqual_sym (a b : option (gmap string prim)) : isEqual a b = isEqual b a.
Proof.
  destruct (isEqual a b) eqn:Hab, (isEqual b a) eqn:Hba; try reflexivity.
  - destruct a as [x|], b as [y|]; simpl in *; try discriminate.
    pose proof (proj1 (equalObjects_lookup x y) Hab) as Hxy.
    assert (equalObjects y x = true); [|congruence].
    apply equalObjects_lookup. intros k. specialize (Hxy k).
    destruct Hxy; constructor. by apply same_value_sym.
  - destruct a as [x|], b as [y|]; simpl in *; try discriminate.
    pose proof (proj1 (equalObjects_lookup y x) Hba) as Hyx.
    assert (equalObjects x y = true); [|congruence].
    apply equalObjects_lookup. intros k. specialize (Hyx k).
    destruct Hyx; constructor. by apply same_value_sym.
Qed.

(** [equals] does not depend on which of the two events it is called on:
    [a.equals(b)] and [b.equals(a)] give the same answer. *)
Theorem equals_sym {T : Type} `{EqDecision T} (e1 e2 : MenuEvent T) :
  equals e1 (Some e2) = equals e2 (Some e1).
Proof.
  unfold equals.
  rewrite (isEqual_sym (data e2) (data e1)).
  rewrite (bool_decide_ext (type e2 = type e1) (type e1 = type e2)) by (split; congruence).
  rewrite (bool_decide_ext (itemId (source e2) = itemId (source e1))
             (itemId (source e1) = itemId (source e2))) by (split; congruence).
  do 3 f_equal.
  destruct (target e2) as [t2|], (target e1) as [t1|]; try reflexivity.
  rewrite (strict_eq_number_sym (angle t2) (angle t1)).
  rewrite (bool_decide_ext (itemId t2 = itemId t1) (itemId t1 = itemId t2)) by (split; congruence).
  reflexivity.
Qed.

Lemma baseIsEqual_refl (v : prim) : baseIsEqual v v = true.
Proof. unfold baseIsEqual. destruct (strict_eq v v); reflexivity. Qed.

Lemma isEqual_refl (a : option (gmap string prim)) : isEqual a a = true.
Proof.
  destruct a as [x|]; [|reflexivity]. simpl. unfold equalObjects.
  rewrite bool_decide_eq_true_2 by reflexivity. simpl.
  apply forallb_forall. intros [k v] Hkv. simpl.
  apply list_elem_of_In, elem_of_map_to_list in Hkv. rewrite Hkv. apply baseIsEqual_refl.
Qed.

(** An event equals itself, whatever its payload holds, unless it has a
    target whose angle is not equal to itself under [===], that is unless
    the angle of its target is [NaN]. *)
Theorem equals_self {T : Type} `{EqDecision T} (e : MenuEvent T) :
  equals e (Some e)
  = match target e with
    | Some t => strict_eq_number (angle t) (angle t)
    | None => true
    end.
Proof.
  unfold equals. rewrite isEqual_refl, !bool_decide_eq_true_2 by reflexivity.
  destruct (target e) as [t|]; [|reflexivity].
  rewrite bool_decide_eq_true_2 by reflexivity. simpl.
  rewrite !andb_true_r. reflexivity.
Qed.

(** A target at the angle [NaN]: the event is not equal to itself. *)
Example equals_self_nan : equals towards_nan (Some towards_nan) = false.
Proof. reflexivity. Qed.

End MenuEventSymmetry.

(** * [Menu]: [init], the accessors it enables, and [display] *)

Module MenuLifecycle.

Import Js MenuModel MenuSpec InputView MenuHistory MenuFacts.

(** ** [init] and what it sets up *)

Lemma init_fields (w : Browser) (m : Menu) :
  init w m =
  match querySelector w (_rootSelector m) with
  | None =>
      Thrown (Error ("No element matching '" +:+ _rootSelector m +:+ "' found.")) m
  | Some root =>
      Done {| _rootSelector := _rootSelector m;
              _settings := _settings m;
              _inputPosition := _inputPosition m;
              _click := _click m;
              _dragging := _dragging m;
              _root := Some root;
              _canvas := Some fresh_canvas;
              _scope := Some (sized_scope w);
              _rootItem := _rootItem m;
              _fadeAnimation := _fadeAnimation m;
              _trace := _trace m;
              _traceVisGroup := Some [];
              _markingMode := _markingMode m;
              observablesSetUp := true;
              deactivationObservers := deactivationObservers m;
              draggingSubscribed := true;
              clickSubscribed := true;
              reportedErrors := reportedErrors m |}
  end.
Proof.
  unfold init. open_menu m. simpl. destruct (querySelector w sel); reflexivity.
Qed.

(** When the selector of the menu matches nothing in the page, [init()]
    throws and leaves the menu as it was.  When it matches an element,
    [init()] returns: the canvas accessor gives the new canvas, the scope
    has the size of the window, the group of the trace visualization is
    empty, the pipelines and the two subscribers of the menu are
    subscribed, and the structure, the animation, the trace and everything
    the pipelines read are as before. *)
Theorem init_outcome (w : Browser) (m : Menu) :
  (querySelector w (_rootSelector m) = None ->
   init w m
   = Thrown (Error ("No element matching '" +:+ _rootSelector m +:+ "' found.")) m)
  /\ (forall root : HTMLElement,
        querySelector w (_rootSelector m) = Some root ->
        exists m',
          init w m = Done m'
          /\ _root m' = Some root
          /\ get_canvas m' = Ok fresh_canvas
          /\ _scope m' = Some (sized_scope w)
          /\ _traceVisGroup m' = Some []
          /\ observablesSetUp m' = true
          /\ draggingSubscribed m' = true
          /\ clickSubscribed m' = true
          /\ get_inputPosition m' = get_inputPosition m
          /\ get_markingMode m' = get_markingMode m
          /\ deactivationObservers m' = deactivationObservers m
          /\ dragging_log m' = dragging_log m
          /\ click_log m' = click_log m
          /\ _rootItem m' = _rootItem m
          /\ _fadeAnimation m' = _fadeAnimation m
          /\ _trace m' = _trace m
          /\ reportedErrors m' = reportedErrors m).
Proof.
  rewrite init_fields. split.
  - intros ->. reflexivity.
  - intros root ->. eexists. split; [reflexivity|]. repeat split.
Qed.

Lemma init_outcome_witness :
  querySelector empty_page (_rootSelector new_menu) = None
  /\ init empty_page new_menu
     = Thrown (Error "No element matching '#canvas' found.") new_menu
  /\ querySelector page (_rootSelector new_menu) = Some "div#canvas"
  /\ exists m',
       init page new_menu = Done m'
       /\ _root m' = Some "div#canvas"
       /\ get_canvas m' = Ok fresh_canvas
       /\ _scope m' = Some (sized_scope page)
       /\ _traceVisGroup m' = Some []
       /\ observablesSetUp m' = true
       /\ draggingSubscribed m' = true
       /\ clickSubscribed m' = true
       /\ get_inputPosition m' = get_inputPosition new_menu
       /\ get_markingMode m' = get_markingMode new_menu
       /\ deactivationObservers m' = deactivationObservers new_menu
       /\ dragging_log m' = dragging_log new_menu
       /\ click_log m' = click_log new_menu
       /\ _rootItem m' = _rootItem new_menu
       /\ _fadeAnimation m' = _fadeAnimation new_menu
       /\ _trace m' = _trace new_menu
       /\ reportedErrors m' = reportedErrors new_menu.
Proof.
  split; [reflexivity|].
  split; [exact (proj1 (init_outcome empty_page new_menu) eq_refl)|].
  split; [reflexivity|].
  exact (proj2 (init_outcome page new_menu) "div#canvas" eq_refl).
Defined.

(** ** Before [init] *)

Lemma set_no_observers (m : Menu) :
  deactivationObservers m = [] -> set_deactivationObservers [] m = m.
Proof. open_menu m. simpl. intros ->. reflexivity. Qed.

Lemma dispatch_bare (ev : InputEvent) (m : Menu) : bare m -> dispatch ev m = Done m.
Proof.
  intros (_ & _ & _ & Hsu & Hobs). destruct ev as [e|e|p|d]; simpl.
  - unfold inputActivation_next. rewrite Hsu. reflexivity.
  - unfold inputDeactivation_next. rewrite Hsu. reflexivity.
  - unfold inputPosition_next. rewrite Hsu. reflexivity.
  - unfold elapse. rewrite Hobs. simpl. rewrite set_no_observers by exact Hobs. reflexivity.
Qed.

Ltac frame_field P :=
  let m := fresh "m" in
  intros ? m ?; unfold on_rootItem, P in *; open_menu m; simpl in *; assumption.

Lemma display_bare (m : Menu) : bare m -> bare (menu_of (display m)).
Proof. apply display_frame; frame_field bare. Qed.

Lemma uninitialized_bare (m : Menu) : uninitialized m -> bare m.
Proof.
  induction 1 as [sel st|w m _ IH Hq|structure m _ IH|m _ IH|ev m _ IH].
  - repeat split.
  - rewrite init_fields, Hq. exact IH.
  - unfold bare in *. open_menu m. exact IH.
  - apply display_bare, IH.
  - rewrite dispatch_bare by exact IH. exact IH.
Qed.

(** Before [init()] has succeeded, what arrives on the three input subjects
    is ignored: no event changes the menu, and none throws. *)
Theorem inputs_before_init (m : Menu) (evs : list InputEvent) :
  uninitialized m -> run evs m = Done m.
Proof.
  intros H. apply uninitialized_bare in H.
  induction evs as [|ev evs IH]; simpl; [reflexivity|].
  rewrite dispatch_bare by exact H. exact IH.
Qed.

Lemma inputs_before_init_witness :
  uninitialized (setStructure parsed_root new_menu)
  /\ run [Activation primary_down; Position sample_point; Elapse 20;
          Deactivation primary_up]
         (setStructure parsed_root new_menu)
     = Done (setStructure parsed_root new_menu).
Proof.
  assert (H : uninitialized (setStructure parsed_root new_menu)).
  { apply un_setStructure, un_new. }
  split; [exact H|]. exact (inputs_before_init _ _ H).
Defined.

(** ** The [canvas] accessor *)

Lemma initialized_has_canvas (m : Menu) : initialized m -> has_canvas m.
Proof.
  induction 1 as [w m m' Hinit|structure m _ IH|m _ IH|ev m _ IH].
  - rewrite init_fields in Hinit. destruct (querySelector w (_rootSelector m)); [|discriminate].
    injection Hinit as <-. eexists. reflexivity.
  - unfold has_canvas in *. open_menu m. exact IH.
  - apply display_frame; first [exact IH | frame_field has_canvas].
  - destruct ev as [e|e|p|d];
      [apply dispatch_frame|apply dispatch_frame
      |change (has_canvas (menu_of (inputPosition_next p m)));
       apply inputPosition_next_frame
      |apply dispatch_frame];
      first [exact IH | discriminate | frame_field has_canvas
            | destruct (observablesSetUp m); [unfold has_canvas in *; open_menu m|]; exact IH].
Qed.

(** The [canvas] accessor throws [Canvas not initialized in menu] on every
    menu on which [init()] has not succeeded, and returns a canvas on every
    menu on which it has returned, whatever has been done with the menu
    before and since. *)
Theorem canvas_accessor (m : Menu) :
  (uninitialized m -> get_canvas m = Throw (Error "Canvas not initialized in menu"))
  /\ (initialized m -> exists c, get_canvas m = Ok c).
Proof.
  split.
  - intros H. apply uninitialized_bare in H. destruct H as (_ & Hc & _).
    unfold get_canvas. rewrite Hc. reflexivity.
  - intros H. destruct (initialized_has_canvas m H) as [c Hc].
    exists c. unfold get_canvas. rewrite Hc. reflexivity.
Qed.

Lemma canvas_accessor_witness :
  uninitialized new_menu
  /\ get_canvas new_menu = Throw (Error "Canvas not initialized in menu")
  /\ initialized builder_menu
  /\ exists c, get_canvas builder_menu = Ok c.
Proof.
  assert (Hu : uninitialized new_menu) by apply un_new.
  assert (Hi : initialized builder_menu).
  { apply in_setStructure. apply (in_init page new_menu). reflexivity. }
  split; [exact Hu|]. split; [exact (proj1 (canvas_accessor new_menu) Hu)|].
  split; [exact Hi|]. exact (proj2 (canvas_accessor builder_menu) Hi).
Defined.

(** ** [resize] *)

(** Before [init()] has succeeded [resize()] throws a [TypeError], the
    scope being undefined, and changes nothing.  After [init()] has
    returned, in a window [w0], the view has the size of [w0], and
    [resize()] in a window [w] gives it the size of [w] and changes nothing
    else. *)
Theorem resize_outcome (w0 w : Browser) (m m1 : Menu) :
  (uninitialized m ->
   resize w m
   = Thrown (TypeError "Cannot read properties of undefined (reading 'project')") m)
  /\ (init w0 m = Done m1 ->
      _scope m1 = Some (sized_scope w0)
      /\ resize w m1 = Done (set_scope (Some (sized_scope w)) m1)).
Proof.
  split.
  - intros H. apply uninitialized_bare in H. destruct H as (_ & _ & Hs & _).
    unfold resize. rewrite Hs. reflexivity.
  - rewrite init_fields. destruct (querySelector w0 (_rootSelector m)); [|discriminate].
    intros [= <-]. split; reflexivity.
Qed.

Lemma resize_outcome_witness :
  uninitialized new_menu
  /\ resize small_page new_menu
     = Thrown (TypeError "Cannot read properties of undefined (reading 'project')") new_menu
  /\ init page new_menu = Done (menu_of (init page new_menu))
  /\ _scope (menu_of (init page new_menu)) = Some (sized_scope page)
  /\ resize small_page (menu_of (init page new_menu))
     = Done (set_scope (Some (sized_scope small_page)) (menu_of (init page new_menu))).
Proof.
  assert (Hu : uninitialized new_menu) by apply un_new.
  split; [exact Hu|].
  split; [exact (proj1 (resize_outcome page small_page new_menu new_menu) Hu)|].
  split; [reflexivity|].
  exact (proj2 (resize_outcome page small_page new_menu (menu_of (init page new_menu)))
           eq_refl).
Defined.

(** ** [display] *)

(** A [display()] that has returned has nothing left to do: a second
    [display()] right after it returns and changes nothing. *)
Theorem display_idempotent (m m' : Menu) :
  display m = Done m' -> display m' = Done m'.
Proof.
  unfold display. destruct (_rootItem m) as [item|] eqn:Hitem; [|discriminate].
  destruct (bool_decide (item_state item = HIDDEN) || bool_decide (item_state item = NONE))
    eqn:Hstate.
  - destruct (_traceVisGroup (set_trace (_trace m ++ [TraceReset]) m)) as [group|];
      [|discriminate].
    intros [= <-]. open_menu m. simpl in Hitem. subst. destruct item. reflexivity.
  - intros [= <-]. rewrite Hitem, Hstate. reflexivity.
Qed.

Lemma display_idempotent_witness :
  display builder_menu = Done shown_menu /\ display shown_menu = Done shown_menu.
Proof.
  split; [reflexivity|]. exact (display_idempotent builder_menu shown_menu eq_refl).
Defined.

(** ** Once the menu is shown *)

Section Shown.

Variable item : MenuItem.
Variable anim : Animation.
Variable vis : option Group.
Variable trace0 : Trace.
Hypothesis item_active : item_state item = ACTIVE.











End Shown.



(** ** Showing the menu *)

Lemma display_hidden (m : Menu) (item : MenuItem) (group : Group) :
  _rootItem m = Some item -> _traceVisGroup m = Some group -> hidden item ->
  display m
  = Done (set_rootItem (Some (shown_at (get_inputPosition m) item))
            (set_fadeAnimation (_fadeAnimation m ++ [AnimationStop; AnimationStart])
               (set_traceVisGroup (Some [])
                  (set_trace (_trace m ++ [TraceReset]) m)))).
Proof.
  intros Hitem Hgroup Hstate. unfold display. rewrite Hitem.
  assert (bool_decide (item_state item = HIDDEN) || bool_decide (item_state item = NONE)
          = true) as ->.
  { destruct Hstate as [-> | ->]; reflexivity. }
  open_menu m. simpl in Hitem, Hgroup. subst. destruct item. simpl.
  rewrite <- app_assoc. reflexivity.
Qed.

Lemma tick_wait (d : nat) :
  tick d (ClickWait INPUT_TIMEOUT)
  = if d <? INPUT_TIMEOUT then Some (ClickWait (INPUT_TIMEOUT - d)) else None.
Proof.
  unfold tick. rewrite Nat.leb_antisym. destruct (d <? INPUT_TIMEOUT); reflexivity.
Qed.

(** On a fresh menu whose root item is hidden, a press, a wait of [d] time
    units and a release show the root item, at the last input position,
    when the release comes before the timeout, its button is 0 and the
    subscriber that the menu gave to [_click$] is still subscribed, and
    leave it hidden otherwise; the buttons of the press play no part. *)
Theorem left_click_shows_the_menu (m : Menu) (root : MenuItem) (a e : Input) (d : nat) :
  fresh m -> _rootItem m = Some root -> hidden root ->
  exists m',
    run [Activation a; Elapse d; Deactivation e] m = Done m'
    /\ _rootItem m'
       = Some (if (d <? INPUT_TIMEOUT) && strict_eq_number (button e) 0%float
                  && clickSubscribed m
               then shown_at (get_inputPosition m) root else root)
    /\ _trace m'
       = _trace m ++ (if (d <? INPUT_TIMEOUT) && strict_eq_number (button e) 0%float
                         && clickSubscribed m
                      then [TraceReset] else []).
Proof.
  intros (Hr & Hobs & Hmk) Hroot Hh.
  open_ready Hr m. simpl in Hobs, Hmk, Hroot. subst. injection Hroot as ->.
  unfold run, dispatch, inputActivation_next, elapse, inputDeactivation_next,
    unsubscribe_drag_inner, drag_inner_active.
  cbn [deactivationObservers observablesSetUp clickSubscribed].
  rewrite (bool_decide_eq_false_2 _ (not_elem_of_nil DragStop)).
  destruct (strict_eq_number (buttons a) 1%float);
    cbn -[tick INPUT_TIMEOUT display Nat.ltb Nat.leb strict_eq_number]; rewrite tick_wait;
    try change (tick d DragStop) with (Some DragStop);
    destruct (d <? INPUT_TIMEOUT);
    cbn -[tick INPUT_TIMEOUT display Nat.ltb Nat.leb strict_eq_number];
    rewrite ?app_nil_r; try (eexists; (split; [reflexivity|]); split; reflexivity);
    unfold classify_click, click_next, deliver_click, on_click;
    destruct (strict_eq_number (button e) 0%float); destruct csub;
    cbn -[tick INPUT_TIMEOUT display Nat.ltb Nat.leb strict_eq_number];
    rewrite ?(display_hidden _ root grp) by first [reflexivity | exact Hh];
    cbn -[tick INPUT_TIMEOUT display Nat.ltb Nat.leb strict_eq_number];
    rewrite ?app_nil_r; eexists; (split; [reflexivity|]); split; reflexivity.
Qed.

Lemma left_click_shows_the_menu_witness :
  fresh builder_menu
  /\ _rootItem builder_menu = Some structured_root
  /\ hidden structured_root
  /\ clickSubscribed builder_menu = true
  /\ exists m',
       run [Activation primary_down; Elapse 50; Deactivation primary_up] builder_menu
       = Done m'
       /\ _rootItem m' = Some (shown_at ZERO_POINT structured_root)
       /\ _trace m' = [TraceReset].
Proof.
  assert (H : fresh builder_menu).
  { unfold fresh, ready. repeat split; try reflexivity; eexists; reflexivity. }
  assert (Hh : hidden structured_root) by (right; reflexivity).
  split; [exact H|]. split; [reflexivity|]. split; [exact Hh|]. split; [reflexivity|].
  exact (left_click_shows_the_menu builder_menu structured_root primary_down primary_up 50
           H eq_refl Hh).
Defined.

(** On a fresh menu whose root item is hidden, a press of the primary
    button shows nothing.  When the subscriber that the menu gave to
    [_dragging$] is still subscribed, the first position sample after the
    press shows the root item at that sample, resets and then updates the
    trace, restarts the fade animation and turns marking mode on; when the
    subscriber is gone, the sample leaves the root item hidden, the trace
    as it is and marking mode off. *)
Theorem first_sample_shows_the_menu (m : Menu) (root : MenuItem) (a : Input) (p : Point) :
  fresh m -> _rootItem m = Some root -> hidden root -> is_primary a = true ->
  exists m1 m2,
    dispatch (Activation a) m = Done m1
    /\ _rootItem m1 = Some root /\ _trace m1 = _trace m
    /\ dispatch (Position p) m1 = Done m2
    /\ (draggingSubscribed m = true ->
        _rootItem m2 = Some (shown_at p root)
        /\ _trace m2 = _trace m ++ [TraceReset; TraceUpdate p]
        /\ _fadeAnimation m2 = _fadeAnimation m ++ [AnimationStop; AnimationStart]
        /\ get_markingMode m2 = true)
    /\ (draggingSubscribed m = false ->
        _rootItem m2 = Some root
        /\ _trace m2 = _trace m
        /\ _fadeAnimation m2 = _fadeAnimation m
        /\ get_markingMode m2 = false).
Proof.
  intros (Hr & Hobs & Hmk) Hroot Hh Ha.
  open_ready Hr m. simpl in Hobs, Hmk, Hroot. subst. injection Hroot as ->.
  unfold is_primary in Ha.
  unfold dispatch, inputActivation_next, unsubscribe_drag_inner, drag_inner_active.
  cbn [deactivationObservers observablesSetUp draggingSubscribed].
  rewrite (bool_decide_eq_false_2 _ (not_elem_of_nil DragStop)), Ha.
  destruct dsub; simpl; eexists _, _; (split; [reflexivity|]);
    (split; [reflexivity|]); (split; [reflexivity|]);
    unfold inputPosition_next, drag_inner_active, dragging_next, deliver_drag, on_dragging;
    simpl.
  - rewrite (display_hidden _ root grp) by first [reflexivity | exact Hh]. simpl.
    rewrite <- app_assoc. split; [reflexivity|]. split; [|discriminate].
    intros _. repeat split; reflexivity.
  - split; [reflexivity|]. split; [discriminate|].
    intros _. repeat split; reflexivity.
Qed.

Lemma first_sample_shows_the_menu_witness :
  fresh builder_menu
  /\ _rootItem builder_menu = Some structured_root
  /\ hidden structured_root
  /\ is_primary primary_down = true
  /\ draggingSubscribed builder_menu = true
  /\ exists m1 m2,
       dispatch (Activation primary_down) builder_menu = Done m1
       /\ _rootItem m1 = Some structured_root /\ _trace m1 = _trace builder_menu
       /\ dispatch (Position sample_point) m1 = Done m2
       /\ _rootItem m2 = Some (shown_at sample_point structured_root)
       /\ _trace m2 = _trace builder_menu ++ [TraceReset; TraceUpdate sample_point]
       /\ _fadeAnimation m2
          = _fadeAnimation builder_menu ++ [AnimationStop; AnimationStart]
       /\ get_markingMode m2 = true.
Proof.
  assert (H : fresh builder_menu).
  { unfold fresh, ready. repeat split; try reflexivity; eexists; reflexivity. }
  assert (Hh : hidden structured_root) by (right; reflexivity).
  split; [exact H|]. split; [reflexivity|]. split; [exact Hh|]. split; [reflexivity|].
  split; [reflexivity|].
  destruct (first_sample_shows_the_menu builder_menu structured_root primary_down
              sample_point H eq_refl Hh eq_refl)
    as (m1 & m2 & H1 & H2 & H3 & H4 & Hlive & _).
  destruct (Hlive eq_refl) as (H5 & H6 & H7 & H8).
  exists m1, m2. split; [exact H1|]. split; [exact H2|]. split; [exact H3|].
  split; [exact H4|]. split; [exact H5|]. split; [exact H6|]. split; [exact H7|exact H8].
Defined.

End MenuLifecycle.

(** * [Menu]: the two output streams over whole histories *)

Module MenuStreams.

Import Js MenuModel MenuSpec InputView MenuHistory MenuFacts.

(** ** The trace receives the drag stream *)

Lemma forwards_refl (m : Menu) : forwards m m.
Proof.
  split; [reflexivity|]. exists []. rewrite app_nil_r. split; [reflexivity|].
  destruct (draggingSubscribed m); rewrite app_nil_r; reflexivity.
Qed.

Lemma forwards_trans (m1 m2 m3 : Menu) : forwards m1 m2 -> forwards m2 m3 -> forwards m1 m3.
Proof.
  intros (Hl1 & n1 & Hd1 & Ht1) (Hl2 & n2 & Hd2 & Ht2). split; [congruence|].
  exists (n1 ++ n2). rewrite Hd2, Hd1, Ht2, Ht1, Hl1, app_assoc. split; [reflexivity|].
  destruct (draggingSubscribed m1); [rewrite map_app, app_assoc|rewrite !app_nil_r];
    reflexivity.
Qed.

Lemma updates_app (t1 t2 : Trace) : updates (t1 ++ t2) = updates t1 ++ updates t2.
Proof. unfold updates. apply omap_app. Qed.

(** A step that emits nothing on the drag stream and leaves the updates of
    the trace and the subscriber alone. *)
Lemma forwards_quiet (m m' : Menu) :
  draggingSubscribed m' = draggingSubscribed m -> dragging_log m' = dragging_log m ->
  updates (_trace m') = updates (_trace m) -> forwards m m'.
Proof.
  intros Hl Hd Ht. split; [exact Hl|]. exists []. rewrite Hd, Ht, app_nil_r.
  split; [reflexivity|]. destruct (draggingSubscribed m); rewrite app_nil_r; reflexivity.
Qed.

Lemma display_quiet (m m' : Menu) :
  display m = Done m' ->
  draggingSubscribed m' = draggingSubscribed m
  /\ dragging_log m' = dragging_log m /\ updates (_trace m') = updates (_trace m).
Proof.
  unfold display. destruct (_rootItem m) as [item|] eqn:Hitem; [|discriminate].
  destruct (_ || _); [|intros [= <-]; repeat split; reflexivity].
  destruct (_traceVisGroup (set_trace (_trace m ++ [TraceReset]) m)) as [group|];
    [|discriminate].
  intros [= <-]. open_menu m. simpl in Hitem. subst. unfold dragging_log. simpl.
  rewrite updates_app, !app_nil_r. repeat split; reflexivity.
Qed.

Lemma steps_and_then (m : Menu) (r : Outcome) (k : Menu -> Outcome) :
  steps m r -> (forall m1, ready m1 -> steps m1 (k m1)) -> steps m (and_then r k).
Proof.
  intros (m1 & -> & Hr1 & Hf1) Hk. destruct (Hk m1 Hr1) as (m' & Hk' & Hr' & Hf').
  exists m'. split; [exact Hk'|]. split; [exact Hr'|]. exact (forwards_trans _ _ _ Hf1 Hf').
Qed.

Lemma steps_done (m m' : Menu) : ready m' -> forwards m m' -> steps m (Done m').
Proof. intros Hr Hf. exists m'. auto. Qed.

Lemma display_steps (m : Menu) : ready m -> steps m (display m).
Proof.
  intros H. destruct (display_ready m H) as (m' & Hd & Hr & _).
  exists m'. split; [exact Hd|]. split; [exact Hr|].
  destruct (display_quiet m m' Hd) as (Hl & Hlog & Ht). apply forwards_quiet; assumption.
Qed.

Lemma dragging_next_steps (d : DragDefinition) (m : Menu) :
  ready m -> steps m (dragging_next d m).
Proof.
  intros H. destruct (dragging_next_ready d m H) as (m' & Hd & Hr & _).
  exists m'. split; [exact Hd|]. split; [exact Hr|].
  revert Hd. unfold dragging_next.
  assert (Hs : exists s, _dragging m = Some s /\ ready (set_dragging (Some (s ++ [d])) m)).
  { open_ready H m. eexists. split; [reflexivity|]. unfold ready; simpl; eauto 10. }
  destruct Hs as (s & Hs & Hr1). rewrite Hs. intros [= <-]. unfold deliver_drag.
  assert (Hset : draggingSubscribed (set_dragging (Some (s ++ [d])) m) = draggingSubscribed m
                 /\ dragging_log (set_dragging (Some (s ++ [d])) m) = dragging_log m ++ [d]
                 /\ _trace (set_dragging (Some (s ++ [d])) m) = _trace m).
  { unfold dragging_log. open_menu m. simpl in *. subst. repeat split. }
  destruct Hset as (Hlive & Hlog1 & Htrace1).
  rewrite Hlive. destruct (draggingSubscribed m) eqn:Hsub.
  - unfold on_dragging.
    destruct (display_ready _ Hr1) as (m1 & Hd1 & _ & _). rewrite Hd1. cbn [and_then].
    apply display_quiet in Hd1 as (Hl & Hlog & Htrace).
    rewrite Hlog1 in Hlog. rewrite Htrace1 in Htrace.
    split.
    + transitivity (draggingSubscribed m1); [destruct m1; reflexivity|]. congruence.
    + exists [d]. rewrite Hsub. split.
      * rewrite <- Hlog. destruct m1. reflexivity.
      * rewrite <- Htrace. destruct m1. simpl. apply updates_app.
  - split; [congruence|].
    exists [d]. rewrite Hsub, app_nil_r, Hlog1, Htrace1. split; reflexivity.
Qed.

Lemma click_next_steps (c : ClickState) (m : Menu) : ready m -> steps m (click_next c m).
Proof.
  intros H. destruct (click_next_ready c m H) as (m' & Hd & Hr & _).
  exists m'. split; [exact Hd|]. split; [exact Hr|].
  revert Hd. unfold click_next.
  assert (Hs : exists s, _click m = Some s /\ ready (set_click (Some (s ++ [c])) m)).
  { open_ready H m. eexists. split; [reflexivity|]. unfold ready; simpl; eauto 10. }
  destruct Hs as (s & -> & Hr1). intros [= <-].
  apply (forwards_trans _ (set_click (Some (s ++ [c])) m)).
  { apply forwards_quiet; open_menu m; reflexivity. }
  unfold deliver_click. destruct (clickSubscribed _); [|apply forwards_refl].
  unfold on_click. destruct (bool_decide (c = LEFT_CLICK)); [|apply forwards_refl].
  destruct (display_ready _ Hr1) as (m1 & Hd1 & _ & _). rewrite Hd1.
  destruct (display_quiet _ m1 Hd1) as (Hl & Hlog & Ht). apply forwards_quiet; assumption.
Qed.

Lemma set_observers_steps (l : list DeactivationObserver) (m : Menu) :
  ready m -> steps m (Done (set_deactivationObservers l m)).
Proof.
  intros H. apply steps_done; [apply set_observers_ready, H|].
  apply forwards_quiet; open_menu m; reflexivity.
Qed.

Lemma steps_after (m m1 : Menu) (r : Outcome) :
  forwards m m1 -> steps m1 r -> steps m r.
Proof.
  intros Hf (m' & -> & Hr & Hf'). exists m'. split; [reflexivity|]. split; [exact Hr|].
  exact (forwards_trans _ _ _ Hf Hf').
Qed.

Lemma finalize_drag_steps (m : Menu) : ready m -> steps m (finalize_drag m).
Proof.
  intros H. unfold finalize_drag.
  destruct (_markingMode m); [|apply steps_done; [exact H|apply forwards_refl]].
  apply (steps_after _ (set_markingMode false m)).
  - apply forwards_quiet; open_menu m; reflexivity.
  - apply dragging_next_steps. open_ready H m. unfold ready; simpl; eauto 10.
Qed.

Lemma notify_deactivation_steps (e : Input) (todo seen : list DeactivationObserver)
    (m : Menu) :
  ready m -> steps m (notify_deactivation e seen todo m).
Proof.
  revert seen m. induction todo as [|o rest IH]; intros seen m H; simpl.
  - apply steps_done; [exact H|apply forwards_refl].
  - destruct o as [|r]; apply steps_and_then; try (intros m1 Hr1; apply IH, Hr1).
    + destruct (set_observers_steps (seen ++ rest) m H) as (m1 & [= <-] & Hr1 & Hf1).
      apply (steps_after _ _ _ Hf1), finalize_drag_steps, Hr1.
    + destruct (set_observers_steps ((seen ++ [ClickWait INPUT_TIMEOUT]) ++ rest) m H)
        as (m1 & [= <-] & Hr1 & Hf1).
      apply (steps_after _ _ _ Hf1), click_next_steps, Hr1.
Qed.

Lemma dispatch_steps (ev : InputEvent) (m : Menu) : ready m -> steps m (dispatch ev m).
Proof.
  intros H. pose proof H as (Hsu & _). destruct ev as [e|e|p|d]; simpl.
  - unfold inputActivation_next. rewrite Hsu.
    apply steps_and_then; [|intros m1 Hr1; apply set_observers_steps, Hr1].
    destruct (strict_eq_number (buttons e) 1%float);
      [|apply steps_done; [exact H|apply forwards_refl]].
    apply steps_and_then; [|intros m1 Hr1; apply set_observers_steps, Hr1].
    unfold unsubscribe_drag_inner.
    destruct (drag_inner_active m); [|apply steps_done; [exact H|apply forwards_refl]].
    destruct (set_observers_steps (without_drag_stop (deactivationObservers m)) m H)
      as (m1 & [= <-] & Hr1 & Hf1).
    apply (steps_after _ _ _ Hf1), finalize_drag_steps, Hr1.
  - unfold inputDeactivation_next. rewrite Hsu. apply notify_deactivation_steps, H.
  - unfold inputPosition_next. rewrite Hsu.
    assert (Hp : ready (set_inputPosition p m) /\ forwards m (set_inputPosition p m)).
    { split; [|apply forwards_quiet; open_menu m; reflexivity].
      clear Hsu. open_ready H m. unfold ready; simpl; eauto 10. }
    destruct Hp as [Hr1 Hf1].
    destruct (drag_inner_active _);
      [apply (steps_after _ _ _ Hf1), dragging_next_steps, Hr1
      |apply steps_done; assumption].
  - apply set_observers_steps, H.
Qed.

Lemma perform_steps (c : Call) (m : Menu) : ready m -> steps m (perform c m).
Proof.
  intros H. destruct c as [structure| |ev]; simpl.
  - apply steps_done.
    + destruct H as (Hsu & _ & Hg & Hc & Hd).
      apply (setStructure_ready structure m Hsu Hg Hc Hd).
    + apply forwards_quiet; open_menu m; reflexivity.
  - apply display_steps, H.
  - apply dispatch_steps, H.
Qed.

Lemma session_steps (calls : list Call) (m : Menu) : ready m -> steps m (session calls m).
Proof.
  revert m. induction calls as [|c calls IH]; intros m H; simpl.
  - apply steps_done; [exact H|apply forwards_refl].
  - apply steps_and_then; [apply perform_steps, H|exact IH].
Qed.

(** On a menu that has been initialized and given a structure, whatever a
    client does afterwards, nothing throws and, when the subscriber that
    the menu gave to [_dragging$] is subscribed, the trace is updated with
    the position of every value [dragging$] emits, in the order of
    emission, and with nothing else; when the subscriber is gone, which
    under rxjs 6 is the case once [dragging$] has emitted between [init()]
    and [setStructure()], the trace is never updated. *)
Theorem trace_receives_the_drag_stream (calls : list Call) (m : Menu) :
  ready m ->
  exists m' new,
    session calls m = Done m'
    /\ dragging_log m' = dragging_log m ++ new
    /\ updates (_trace m')
       = updates (_trace m) ++ if draggingSubscribed m then map position new else [].
Proof.
  intros H. destruct (session_steps calls m H) as (m' & Hs & _ & _ & new & Hd & Ht).
  exists m', new. auto.
Qed.

Lemma trace_receives_the_drag_stream_witness :
  ready builder_menu
  /\ draggingSubscribed builder_menu = true
  /\ exists m' new,
       session [CallInput (Activation primary_down); CallInput (Position sample_point);
                CallDisplay; CallInput (Deactivation primary_up)] builder_menu
       = Done m'
       /\ dragging_log m' = dragging_log builder_menu ++ new
       /\ updates (_trace m') = updates (_trace builder_menu) ++ map position new.
Proof.
  assert (H : ready builder_menu).
  { unfold ready. repeat split; try reflexivity; eexists; reflexivity. }
  split; [exact H|]. split; [reflexivity|].
  exact (trace_receives_the_drag_stream
           [CallInput (Activation primary_down); CallInput (Position sample_point);
            CallDisplay; CallInput (Deactivation primary_up)]
           builder_menu H).
Defined.

(** ** Timers of the click pipeline *)

Lemma waits_rearm (l : list DeactivationObserver) :
  waits (rearm l) = replicate (length (waits l)) INPUT_TIMEOUT.
Proof.
  induction l as [|o l IH]; [reflexivity|]. destruct o as [|r]; [exact IH|].
  change (rearm (ClickWait r :: l)) with (ClickWait INPUT_TIMEOUT :: rearm l).
  rewrite !waits_cons_wait, IH. reflexivity.
Qed.

Lemma v_step_waits (ev : InputEvent) (v : View) :
  waits (v_observers (v_step ev v))
  = match ev with
    | Activation _ => waits (v_observers v) ++ [INPUT_TIMEOUT]
    | Deactivation _ => replicate (length (waits (v_observers v))) INPUT_TIMEOUT
    | Position _ => waits (v_observers v)
    | Elapse d =>
        omap (fun r => if r <=? d then None else Some (r - d)) (waits (v_observers v))
    end.
Proof.
  destruct ev as [e|e|p|d].
  - apply v_activation_waits.
  - cbn [v_step]. rewrite v_notify_fields by reflexivity. simpl. apply waits_rearm.
  - apply (v_step_passive (Position p) v eq_refl).
  - apply (v_step_passive (Elapse d) v eq_refl).
Qed.

Lemma v_step_waits_bound (ev : InputEvent) (v : View) :
  Forall (fun r => r <= INPUT_TIMEOUT) (waits (v_observers v)) ->
  Forall (fun r => r <= INPUT_TIMEOUT) (waits (v_observers (v_step ev v))).
Proof.
  intros H. rewrite v_step_waits. destruct ev as [e|e|p|d].
  - apply Forall_app. split; [exact H|]. constructor; [reflexivity|constructor].
  - apply Forall_replicate. reflexivity.
  - exact H.
  - apply Forall_forall. intros r' Hr'. apply list_elem_of_omap in Hr' as (r & Hr & Heq).
    rewrite Forall_forall in H. specialize (H r Hr).
    destruct (r <=? d); [discriminate|]. injection Heq as <-. lia.
Qed.

Lemma v_run_waits_bound (evs : list InputEvent) (v : View) :
  Forall (fun r => r <= INPUT_TIMEOUT) (waits (v_observers v)) ->
  Forall (fun r => r <= INPUT_TIMEOUT) (waits (v_observers (v_run evs v))).
Proof.
  revert v. induction evs as [|ev evs IH]; intros v H; [exact H|].
  apply (IH (v_step ev v)), v_step_waits_bound, H.
Qed.

(** On a menu that was fresh, whatever has happened since, a deactivation
    that comes [INPUT_TIMEOUT] time units or more after the event before it
    is no click: every timer of the click pipeline has fired by then (one
    that is due at the very time of the deactivation fires first, see
    [tick]). *)
Theorem no_click_after_the_timeout (m0 : Menu) (evs : list InputEvent) (d : nat)
    (e : Input) :
  fresh m0 -> INPUT_TIMEOUT <= d ->
  exists m m',
    run evs m0 = Done m
    /\ run [Elapse d; Deactivation e] m = Done m'
    /\ click_log m' = click_log m.
Proof.
  intros (Hr & Hobs & _) Hd.
  destruct (run_ready evs m0 Hr) as (m & Hrun & Hr1 & Hv1).
  destruct (run_ready [Elapse d; Deactivation e] m Hr1) as (m' & Hrun' & _ & Hv').
  exists m, m'. split; [exact Hrun|]. split; [exact Hrun'|].
  change (click_log m') with (v_clicks (view m')).
  change (click_log m) with (v_clicks (view m)).
  rewrite Hv'. change (v_run [Elapse d; Deactivation e] (view m))
    with (v_step (Deactivation e) (v_step (Elapse d) (view m))).
  assert (Hb : Forall (fun r => r <= INPUT_TIMEOUT) (waits (v_observers (view m)))).
  { rewrite Hv1. apply v_run_waits_bound.
    change (v_observers (view m0)) with (deactivationObservers m0). rewrite Hobs. constructor. }
  assert (Hnone : waits (v_observers (v_step (Elapse d) (view m))) = []).
  { rewrite v_step_waits. induction Hb as [|r l Hr' _ IH]; [reflexivity|].
    simpl. destruct (Nat.leb_spec r d); [exact IH|lia]. }
  pose proof (v_step_clicks (Elapse d) (view m)) as Hc1. rewrite app_nil_r in Hc1.
  rewrite v_step_clicks, length_rearm, Hnone, Hc1. apply app_nil_r.
Qed.

Lemma no_click_after_the_timeout_witness :
  fresh builder_menu
  /\ INPUT_TIMEOUT <= 250
  /\ exists m m',
       run [Activation primary_down; Elapse 150; Deactivation primary_up] builder_menu
       = Done m
       /\ run [Elapse 250; Deactivation primary_up] m = Done m'
       /\ click_log m' = click_log m.
Proof.
  assert (H : fresh builder_menu).
  { unfold fresh, ready. repeat split; try reflexivity; eexists; reflexivity. }
  assert (Hd : INPUT_TIMEOUT <= 250) by (unfold INPUT_TIMEOUT; lia).
  split; [exact H|]. split; [exact Hd|].
  exact (no_click_after_the_timeout builder_menu
           [Activation primary_down; Elapse 150; Deactivation primary_up] 250 primary_up
           H Hd).
Defined.

(** ** One click for every activation within the window *)

Lemma v_run_counts (evs : list InputEvent) (v : View) :
  Forall (fun ev => ends_drag ev = false) evs ->
  Forall (fun r => elapsed evs < r) (waits (v_observers v)) ->
  elapsed evs < INPUT_TIMEOUT ->
  v_clicks (v_run evs v) = v_clicks v
  /\ length (waits (v_observers (v_run evs v)))
     = length (waits (v_observers v)) + activations evs.
Proof.
  intros Hevs. revert v. induction Hevs as [|ev evs Hev _ IH]; intros v Hw Ht.
  - simpl. split; [reflexivity|lia].
  - change (v_run (ev :: evs) v) with (v_run evs (v_step ev v)).
    assert (Hc : v_clicks (v_step ev v) = v_clicks v).
    { rewrite v_step_clicks. destruct ev; try discriminate; apply app_nil_r. }
    pose proof (v_step_waits ev v) as Hs.
    destruct ev as [a|a|p|d]; try discriminate; cbn [elapsed activations] in *.
    + destruct (IH (v_step (Activation a) v)) as [Hc' Hl'].
      * rewrite Hs. apply Forall_app. split; [exact Hw|].
        constructor; [exact Ht|constructor].
      * exact Ht.
      * split; [congruence|]. rewrite Hl', Hs, length_app. simpl. lia.
    + destruct (IH (v_step (Position p) v)) as [Hc' Hl'].
      * rewrite Hs. exact Hw.
      * exact Ht.
      * split; [congruence|]. rewrite Hl', Hs. reflexivity.
    + assert (Hmap : omap (fun r => if r <=? d then None else Some (r - d))
                       (waits (v_observers v))
                     = map (fun r => r - d) (waits (v_observers v))).
      { clear Hs. induction Hw as [|r l Hr _ IHl]; [reflexivity|].
        simpl. destruct (Nat.leb_spec r d); [lia|]. simpl. f_equal. exact IHl. }
      rewrite Hmap in Hs.
      destruct (IH (v_step (Elapse d) v)) as [Hc' Hl'].
      * rewrite Hs. apply Forall_map. eapply Forall_impl; [exact Hw|].
        simpl. intros r Hr. lia.
      * lia.
      * split; [congruence|]. rewrite Hl', Hs, length_map. reflexivity.
Qed.

(** On a fresh menu, after events that hold no deactivation and take less
    than [INPUT_TIMEOUT] time units in all, a deactivation makes [click$]
    emit one click for every activation there was, each of them left when
    the button of the deactivation is 0 and right otherwise. *)
Theorem one_click_per_activation (m0 : Menu) (evs : list InputEvent) (e : Input) :
  fresh m0 ->
  Forall (fun ev => ends_drag ev = false) evs ->
  elapsed evs < INPUT_TIMEOUT ->
  exists m',
    run (evs ++ [Deactivation e]) m0 = Done m'
    /\ click_log m' = click_log m0 ++ replicate (activations evs) (classify_click e).
Proof.
  intros (Hr & Hobs & _) Hevs Ht.
  destruct (run_ready (evs ++ [Deactivation e]) m0 Hr) as (m' & Hrun & _ & Hv).
  exists m'. split; [exact Hrun|].
  change (click_log m') with (v_clicks (view m')).
  change (click_log m0) with (v_clicks (view m0)).
  rewrite Hv, v_run_snoc, v_step_clicks, length_rearm.
  destruct (v_run_counts evs (view m0) Hevs) as [Hc Hl].
  - change (v_observers (view m0)) with (deactivationObservers m0). rewrite Hobs. constructor.
  - exact Ht.
  - rewrite Hc, Hl. change (v_observers (view m0)) with (deactivationObservers m0).
    rewrite Hobs. reflexivity.
Qed.

Lemma one_click_per_activation_witness :
  fresh builder_menu
  /\ Forall (fun ev => ends_drag ev = false)
            [Activation primary_down; Elapse 50; Activation primary_down]
  /\ elapsed [Activation primary_down; Elapse 50; Activation primary_down] < INPUT_TIMEOUT
  /\ exists m',
       run ([Activation primary_down; Elapse 50; Activation primary_down]
              ++ [Deactivation primary_up]) builder_menu = Done m'
       /\ click_log m' = click_log builder_menu ++ [LEFT_CLICK; LEFT_CLICK].
Proof.
  assert (H : fresh builder_menu).
  { unfold fresh, ready. repeat split; try reflexivity; eexists; reflexivity. }
  assert (Hevs : Forall (fun ev => ends_drag ev = false)
                   [Activation primary_down; Elapse 50; Activation primary_down]).
  { constructor; [reflexivity|]. constructor; [reflexivity|].
    constructor; [reflexivity|constructor]. }
  assert (Ht : elapsed [Activation primary_down; Elapse 50; Activation primary_down]
               < INPUT_TIMEOUT).
  { unfold INPUT_TIMEOUT. simpl. lia. }
  split; [exact H|]. split; [exact Hevs|]. split; [exact Ht|].
  exact (one_click_per_activation builder_menu
           [Activation primary_down; Elapse 50; Activation primary_down] primary_up
           H Hevs Ht).
Defined.

(** ** Nothing without an activation *)

Lemma v_run_idle (evs : list InputEvent) (v : View) :
  Forall (fun ev => starts_drag ev = false) evs ->
  DragStop ∉ v_observers v -> v_marking v = false ->
  v_drags (v_run evs v) = v_drags v /\ v_marking (v_run evs v) = false
  /\ DragStop ∉ v_observers (v_run evs v).
Proof.
  intros Hevs. revert v. induction Hevs as [|ev evs Hev _ IH]; intros v Hout Hmk.
  - split; [reflexivity|]. split; [exact Hmk|exact Hout].
  - change (v_run (ev :: evs) v) with (v_run evs (v_step ev v)).
    assert (Hinv : v_marking v = true -> DragStop ∈ v_observers v) by congruence.
    destruct (IH (v_step ev v)) as (Hd & Hm & Ho).
    + rewrite v_step_drag_stop. intros [?|[? _]]; [congruence|contradiction].
    + destruct (v_marking (v_step ev v)) eqn:E; [|reflexivity].
      apply (v_step_marking ev v Hinv) in E as [(p & _ & ? & _)|(? & _)];
        [contradiction|congruence].
    + split; [|split; [exact Hm|exact Ho]]. rewrite Hd, (v_step_drags ev v Hinv).
      destruct ev as [a|a|p|d]; simpl in Hev;
        rewrite ?Hmk, ?Hev, ?(bool_decide_eq_false_2 _ Hout); apply app_nil_r.
Qed.

Lemma v_run_no_activation (evs : list InputEvent) (v : View) :
  Forall (fun ev => is_activation ev = false) evs ->
  waits (v_observers v) = [] ->
  v_clicks (v_run evs v) = v_clicks v /\ waits (v_observers (v_run evs v)) = [].
Proof.
  intros Hevs. revert v. induction Hevs as [|ev evs Hev _ IH]; intros v Hw.
  - split; [reflexivity|exact Hw].
  - change (v_run (ev :: evs) v) with (v_run evs (v_step ev v)).
    destruct (IH (v_step ev v)) as [Hc Hw'].
    + rewrite v_step_waits, Hw. destruct ev; try discriminate; reflexivity.
    + split; [|exact Hw']. rewrite Hc, v_step_clicks, length_rearm, Hw.
      destruct ev; apply app_nil_r.
Qed.

(** On a fresh menu, as long as no activation carries the primary button,
    [dragging$] emits nothing and the menu stays out of marking mode,
    whatever else arrives; and as long as no activation arrives at all,
    [click$] emits nothing either and nothing observes
    [inputDeactivation$]. *)
Theorem nothing_without_an_activation (m0 : Menu) (evs : list InputEvent) :
  fresh m0 ->
  exists m,
    run evs m0 = Done m
    /\ (Forall (fun ev => starts_drag ev = false) evs ->
        dragging_log m = dragging_log m0 /\ get_markingMode m = false)
    /\ (Forall (fun ev => is_activation ev = false) evs ->
        click_log m = click_log m0 /\ deactivationObservers m = []).
Proof.
  intros (Hr & Hobs & Hmk).
  destruct (run_ready evs m0 Hr) as (m & Hrun & _ & Hv).
  assert (Hout : DragStop ∉ v_observers (view m0)).
  { change (v_observers (view m0)) with (deactivationObservers m0). rewrite Hobs.
    apply not_elem_of_nil. }
  exists m. split; [exact Hrun|]. split.
  - intros Hevs.
    change (dragging_log m) with (v_drags (view m)).
    change (get_markingMode m) with (v_marking (view m)).
    rewrite Hv. destruct (v_run_idle evs (view m0) Hevs Hout Hmk) as (Hd & Hm & _).
    split; [exact Hd|exact Hm].
  - intros Hevs.
    assert (Hidle : Forall (fun ev => starts_drag ev = false) evs).
    { eapply Forall_impl; [exact Hevs|]. intros [?|?|?|?]; simpl; congruence. }
    destruct (v_run_no_activation evs (view m0) Hevs) as [Hc Hw].
    { change (v_observers (view m0)) with (deactivationObservers m0). rewrite Hobs.
      reflexivity. }
    destruct (v_run_idle evs (view m0) Hidle Hout Hmk) as (_ & _ & Hno).
    rewrite <- Hv in Hc, Hw, Hno. split; [exact Hc|].
    change (v_observers (view m)) with (deactivationObservers m) in Hw, Hno.
    destruct (deactivationObservers m) as [|[|r] l]; [reflexivity| |discriminate Hw].
    destruct Hno. constructor.
Qed.

Lemma nothing_without_an_activation_witness :
  fresh builder_menu
  /\ Forall (fun ev => starts_drag ev = false)
            [Position sample_point; Deactivation primary_up; Elapse 20]
  /\ Forall (fun ev => is_activation ev = false)
            [Position sample_point; Deactivation primary_up; Elapse 20]
  /\ exists m,
       run [Position sample_point; Deactivation primary_up; Elapse 20] builder_menu = Done m
       /\ dragging_log m = dragging_log builder_menu
       /\ get_markingMode m = false
       /\ click_log m = click_log builder_menu
       /\ deactivationObservers m = [].
Proof.
  assert (H : fresh builder_menu).
  { unfold fresh, ready. repeat split; try reflexivity; eexists; reflexivity. }
  assert (H1 : Forall (fun ev => starts_drag ev = false)
                 [Position sample_point; Deactivation primary_up; Elapse 20]).
  { constructor; [reflexivity|]. constructor; [reflexivity|].
    constructor; [reflexivity|constructor]. }
  assert (H2 : Forall (fun ev => is_activation ev = false)
                 [Position sample_point; Deactivation primary_up; Elapse 20]).
  { constructor; [reflexivity|]. constructor; [reflexivity|].
    constructor; [reflexivity|constructor]. }
  split; [exact H|]. split; [exact H1|]. split; [exact H2|].
  destruct (nothing_without_an_activation builder_menu
              [Position sample_point; Deactivation primary_up; Elapse 20] H)
    as (m & Hrun & Hd & Hc).
  destruct (Hd H1) as [Hd1 Hd2]. destruct (Hc H2) as [Hc1 Hc2].
  exists m. split; [exact Hrun|]. split; [exact Hd1|]. split; [exact Hd2|].
  split; [exact Hc1|exact Hc2].
Defined.

(** ** The shape of the drag stream *)

Lemma closes_a_run_nil : closes_a_run [].
Proof. intros pre d post H. destruct pre; discriminate. Qed.

Lemma closes_a_run_snoc (log : list DragDefinition) (d : DragDefinition) :
  closes_a_run log ->
  (state d = END ->
   exists pre' d', log = pre' ++ [d'] /\ state d' = DRAGGING /\ position d' = position d) ->
  closes_a_run (log ++ [d]).
Proof.
  intros Hlog Hd pre x post Heq Hx.
  destruct post as [|y post _] using rev_ind.
  - apply app_inj_tail in Heq as [-> ->]. apply Hd, Hx.
  - rewrite app_comm_cons, app_assoc in Heq. apply app_inj_tail in Heq as [-> _].
    apply (Hlog pre x post eq_refl Hx).
Qed.

Lemma v_step_shape (ev : InputEvent) (v : View) (new : list DragDefinition) :
  (v_marking v = true -> DragStop ∈ v_observers v) ->
  closes_a_run new -> run_open v new ->
  exists extra,
    v_drags (v_step ev v) = v_drags v ++ extra
    /\ closes_a_run (new ++ extra) /\ run_open (v_step ev v) (new ++ extra).
Proof.
  intros Hinv Hnew Hopen.
  pose proof (v_step_drags ev v Hinv) as Hdrags.
  pose proof (v_step_marking ev v Hinv) as Hmark.
  pose proof (v_step_position ev v) as Hpos.
  unfold run_open in *. set (v' := v_step ev v) in *. clearbody v'.
  eexists. split; [exact Hdrags|]. clear Hdrags.
  destruct ev as [e|e|p|d].
  - destruct (is_primary e) eqn:Hp; cbn [andb].
    + destruct (v_marking v) eqn:Hmk.
      * split.
        -- apply closes_a_run_snoc; [exact Hnew|]. intros _. apply Hopen. reflexivity.
        -- intros Hmk'. apply Hmark in Hmk' as [(q & ? & _)|(_ & _ & Hs)];
             [discriminate|]. cbn [starts_drag] in Hs. congruence.
      * rewrite app_nil_r. split; [exact Hnew|].
        intros Hmk'. apply Hmark in Hmk' as [(q & ? & _)|(? & _)]; [discriminate|congruence].
    + rewrite app_nil_r. split; [exact Hnew|].
      intros Hmk'. apply Hmark in Hmk' as [(q & ? & _)|(Hmk & _)]; [discriminate|].
      rewrite Hpos. apply Hopen, Hmk.
  - destruct (v_marking v) eqn:Hmk.
    + split.
      * apply closes_a_run_snoc; [exact Hnew|]. intros _. apply Hopen. reflexivity.
      * intros Hmk'. apply Hmark in Hmk' as [(q & ? & _)|(_ & ? & _)]; discriminate.
    + rewrite app_nil_r. split; [exact Hnew|].
      intros Hmk'. apply Hmark in Hmk' as [(q & ? & _)|(? & _)]; [discriminate|congruence].
  - destruct (bool_decide_reflect (DragStop ∈ v_observers v)) as [Hin|Hout].
    + split.
      * apply closes_a_run_snoc; [exact Hnew|]. discriminate.
      * intros _. rewrite Hpos. eexists _, _. split; [reflexivity|]. split; reflexivity.
    + rewrite app_nil_r. split; [exact Hnew|].
      intros Hmk'. apply Hmark in Hmk' as [(q & _ & ? & _)|(Hmk & _)]; [contradiction|].
      destruct (Hout (Hinv Hmk)).
  - rewrite app_nil_r. split; [exact Hnew|].
    intros Hmk'. apply Hmark in Hmk' as [(q & ? & _)|(Hmk & _)]; [discriminate|].
    rewrite Hpos. apply Hopen, Hmk.
Qed.

Lemma v_run_shape (evs : list InputEvent) (v0 : View) :
  v_observers v0 = [] -> v_marking v0 = false ->
  exists new,
    v_drags (v_run evs v0) = v_drags v0 ++ new
    /\ closes_a_run new /\ run_open (v_run evs v0) new.
Proof.
  intros Hobs Hmk. induction evs as [|ev evs (new & Hd & Hc & Ho)] using rev_ind.
  - exists []. simpl. rewrite app_nil_r. split; [reflexivity|].
    split; [apply closes_a_run_nil|]. intros H. congruence.
  - rewrite v_run_snoc.
    destruct (v_run_tracks evs v0 Hobs Hmk) as [Hin Hs].
    assert (Hinv : v_marking (v_run evs v0) = true -> DragStop ∈ v_observers (v_run evs v0)).
    { intros H. apply Hin, sampled_drag_in_progress, Hs, H. }
    destruct (v_step_shape ev (v_run evs v0) new Hinv Hc Ho) as (extra & Hd' & Hc' & Ho').
    exists (new ++ extra). rewrite Hd', Hd, app_assoc. auto.
Qed.

(** On a fresh menu, in what [dragging$] emits, every [END] comes right
    after a [DRAGGING] and carries its position: the stream never begins
    with [END] and never emits two in a row. *)
Theorem drag_stream_shape (m0 : Menu) (evs : list InputEvent) :
  fresh m0 ->
  exists m new,
    run evs m0 = Done m
    /\ dragging_log m = dragging_log m0 ++ new
    /\ closes_a_run new.
Proof.
  intros (Hr & Hobs & Hmk).
  destruct (run_ready evs m0 Hr) as (m & Hrun & _ & Hv).
  destruct (v_run_shape evs (view m0) Hobs Hmk) as (new & Hd & Hc & _).
  exists m, new. split; [exact Hrun|]. split; [|exact Hc].
  change (dragging_log m) with (v_drags (view m)). rewrite Hv. exact Hd.
Qed.

Lemma drag_stream_shape_witness :
  fresh builder_menu
  /\ exists m new,
       run [Activation primary_down; Position sample_point; Deactivation primary_up]
           builder_menu = Done m
       /\ dragging_log m = dragging_log builder_menu ++ new
       /\ closes_a_run new.
Proof.
  assert (H : fresh builder_menu).
  { unfold fresh, ready. repeat split; try reflexivity; eexists; reflexivity. }
  split; [exact H|].
  exact (drag_stream_shape builder_menu
           [Activation primary_down; Position sample_point; Deactivation primary_up] H).
Defined.

(** The stream of the witness: one [DRAGGING], then the [END] at its
    position. *)
Example drag_stream_of_a_stroke :
  dragging_log
    (menu_of (run [Activation primary_down; Position sample_point;
                   Deactivation primary_up] builder_menu))
  = [mkDrag sample_point DRAGGING; mkDrag sample_point END].
Proof. vm_compute. reflexivity. Qed.

(** ** A press of the primary button during a drag *)

(** On a menu that was fresh, whatever has happened since, an activation
    with the primary button in marking mode ends the drag that is in
    progress: [dragging$] emits one [END] at the last input position and
    marking mode is off, and a new drag is in progress.  Out of marking
    mode, or without the primary button, an activation emits nothing on
    [dragging$]; without the primary button it keeps marking mode and the
    drag in progress as they are.  No activation emits a click or changes
    the input position. *)
Theorem activation_restarts_the_drag (m0 : Menu) (evs : list InputEvent) (e : Input)
    (m : Menu) :
  fresh m0 -> run evs m0 = Done m ->
  exists m',
    dispatch (Activation e) m = Done m'
    /\ dragging_log m'
       = dragging_log m
         ++ (if is_primary e && get_markingMode m
             then [mkDrag (get_inputPosition m) END] else [])
    /\ get_markingMode m' = (if is_primary e then false else get_markingMode m)
    /\ (DragStop ∈ deactivationObservers m'
        <-> is_primary e = true \/ DragStop ∈ deactivationObservers m)
    /\ get_inputPosition m' = get_inputPosition m
    /\ click_log m' = click_log m.
Proof.
  intros H Hrun.
  destruct (run_tracks evs m0 H) as (m1 & Hrun1 & Hr & Hd & Hs).
  rewrite Hrun in Hrun1. injection Hrun1 as <-.
  destruct (dispatch_ready (Activation e) m Hr) as (m' & Hdis & _ & Hv).
  assert (Hinv : v_marking (view m) = true -> DragStop ∈ v_observers (view m)).
  { intros Hmk. apply Hd, sampled_drag_in_progress, Hs, Hmk. }
  exists m'. split; [exact Hdis|].
  change (dragging_log m') with (v_drags (view m')).
  change (get_markingMode m') with (v_marking (view m')).
  change (deactivationObservers m') with (v_observers (view m')).
  change (get_inputPosition m') with (v_position (view m')).
  change (click_log m') with (v_clicks (view m')).
  rewrite Hv. split; [apply (v_step_drags (Activation e) (view m) Hinv)|].
  split.
  - cbn [v_step]. rewrite v_activation_fields. simpl. fold (is_primary e).
    destruct (is_primary e); simpl; [|reflexivity].
    destruct (bool_decide_reflect (DragStop ∈ deactivationObservers m)) as [Hin|Hout];
      [reflexivity|].
    destruct (_markingMode m) eqn:Hmk; [|reflexivity]. destruct (Hout (Hinv Hmk)).
  - split.
    + rewrite v_step_drag_stop. simpl.
      split; [intros [?|[? _]]; auto|intros [?|?]; auto].
    + split; [apply (v_step_position (Activation e))|].
      rewrite v_step_clicks. apply app_nil_r.
Qed.

Lemma activation_restarts_the_drag_witness :
  fresh builder_menu
  /\ run [Activation primary_down; Position sample_point] builder_menu
     = Done (menu_of (run [Activation primary_down; Position sample_point] builder_menu))
  /\ exists m',
       dispatch (Activation primary_down)
         (menu_of (run [Activation primary_down; Position sample_point] builder_menu))
       = Done m'
       /\ dragging_log m' = [mkDrag sample_point DRAGGING] ++ [mkDrag sample_point END]
       /\ get_markingMode m' = false
       /\ (DragStop ∈ deactivationObservers m'
           <-> is_primary primary_down = true
               \/ DragStop ∈ deactivationObservers
                     (menu_of (run [Activation primary_down; Position sample_point]
                                   builder_menu)))
       /\ get_inputPosition m' = sample_point
       /\ click_log m' = [].
Proof.
  assert (H : fresh builder_menu).
  { unfold fresh, ready. repeat split; try reflexivity; eexists; reflexivity. }
  split; [exact H|]. split; [reflexivity|].
  exact (activation_restarts_the_drag builder_menu
           [Activation primary_down; Position sample_point] primary_down _ H eq_refl).
Defined.

End MenuStreams.
